(** * PNS local cache: mapping registry and SQLite client

    A shallow embedding of [src/mapping.py] and [src/dao/sqlite_client.py].

    Python exceptions are modelled by the [result] type: a call either
    returns a value or raises.  Dictionaries are association lists in
    insertion order; [d[k]] raises [KeyError] on a missing key and
    [d.get(k)] returns [None]. *)

From Stdlib Require Import String Ascii List Bool Arith ZArith Lia.
Import ListNotations.
Local Open Scope string_scope.
Local Open Scope list_scope.

(** ** Exceptions and results *)

(** The exceptions the modelled code can raise.  The [sqlite3] errors are
    kept apart by cause. *)
Inductive exn : Type :=
| KeyError (key : string)
| ValueError (missing_pk : list string)
| OverflowError
| NoSuchTable
| DuplicateColumnName (column : string)
| NoSuchColumn (column : string)
| SyntaxError
| TooManyColumns
| TooManyVariables
| NotNullWithoutDefault (column : string)
| NonConstantDefault (column : string)
| NotNullConstraint (column : string)
| IncorrectBindings
| DiskIOError.

Inductive result (A : Type) : Type :=
| Returned (a : A)
| Raised (e : exn).

Arguments Returned {A} a.
Arguments Raised {A} e.

(** ** Python dictionaries with string keys *)

Definition dict (V : Type) : Type := list (string * V).

Fixpoint dict_find {V} (k : string) (d : dict V) : option V :=
  match d with
  | [] => None
  | (k', v) :: d' => if String.eqb k k' then Some v else dict_find k d'
  end.

(** [k in d] *)
Definition dict_contains {V} (k : string) (d : dict V) : bool :=
  match dict_find k d with Some _ => true | None => false end.

(** [d[k]] *)
Definition dict_getitem {V} (k : string) (d : dict V) : result V :=
  match dict_find k d with Some v => Returned v | None => Raised (KeyError k) end.

(** [d.get(k)] for a dictionary whose values may be [None] *)
Definition dict_get {V} (k : string) (d : dict (option V)) : option V :=
  match dict_find k d with Some v => v | None => None end.

Definition dict_keys {V} (d : dict V) : list string := map fst d.

(** [x in xs] for a Python list of strings *)
Definition str_in (x : string) (xs : list string) : bool :=
  existsb (String.eqb x) xs.

(** * The mapping registry ([src/mapping.py]) *)

Module Mapping.

(** One entry [{"codigo": ..., "tipo": ...}]. *)
Definition entry : Type := dict (option string).

Definition mk (codigo tipo : string) : entry :=
  [("codigo", Some codigo); ("tipo", Some tipo)].

Definition both (codigo tipo : string) : dict entry :=
  [("2013", mk codigo tipo); ("2019", mk codigo tipo)].

Definition VAR_MAP : dict (dict entry) :=
  [ ("identificador_unidade", both "upa_pns" "string");
    ("sigla_uf", both "sigla_uf" "string");
    ("v0024", both "v0024" "string");
    ("sexo", both "c006" "string");
    ("idade", both "c008" "int");
    ("preventivo", both "r001" "string");
    ("mamografia", both "r015" "string");
    ("renda_per_capita", both "vdf003" "float");
    ("peso_amostral", both "v00291" "float");
    ("preventivo_pagou", both "r012" "string");
    ("medico_pediu_mamografia", both "r014" "string");
    ("mamografia_pagou", both "r019" "string");
    ("raca", both "c009" "string");
    ("anos_estudo", both "vdd004a" "int");
    ("ja_engravidou", both "r039" "string");
    ("filhos_vivos", both "r045" "int");
    ("estado_civil", both "c011" "string") ].

(** The body shared by [get_codigo_fisico] and [get_tipo]: two guarded
    subscriptions and a [.get] on the entry.  The table is a parameter so
    that the lookups can be studied on any registry. *)
Definition lookup_field (field : string) (var_map : dict (dict entry))
    (variavel_semantica origem : string) : result (option string) :=
  if negb (dict_contains variavel_semantica var_map) then Returned None
  else
    match dict_getitem variavel_semantica var_map with
    | Raised e => Raised e
    | Returned por_origem =>
        if negb (dict_contains origem por_origem) then Returned None
        else
          match dict_getitem variavel_semantica var_map with
          | Raised e => Raised e
          | Returned por_origem' =>
              match dict_getitem origem por_origem' with
              | Raised e => Raised e
              | Returned e => Returned (dict_get field e)
              end
          end
    end.

Definition get_codigo_fisico_in := lookup_field "codigo".
Definition get_tipo_in := lookup_field "tipo".

Definition variavel_existe_in (var_map : dict (dict entry))
    (variavel_semantica origem : string) : result bool :=
  match get_codigo_fisico_in var_map variavel_semantica origem with
  | Raised e => Raised e
  | Returned codigo =>
      Returned (match codigo with Some _ => true | None => false end)
  end.

Definition get_codigo_fisico := get_codigo_fisico_in VAR_MAP.
Definition get_tipo := get_tipo_in VAR_MAP.
Definition variavel_existe := variavel_existe_in VAR_MAP.

(** [listar_variaveis_disponiveis(origem)] *)
Definition listar_variaveis_disponiveis (origem : option string)
  : list string :=
  match origem with
  | None => dict_keys VAR_MAP
  | Some o =>
      filter (fun var =>
                match variavel_existe var o with
                | Returned b => b
                | Raised _ => false
                end) (dict_keys VAR_MAP)
  end.

(** The origins the registry knows: every second-level key. *)
Definition origens_conhecidas : list string :=
  nodup string_dec (flat_map (fun kv => dict_keys (snd kv)) VAR_MAP).

(** What a lookup finds when it follows the table by hand: the entry for
    the pair, when both levels have the key. *)
Definition entry_of (var_map : dict (dict entry))
    (variavel_semantica origem : string) : option entry :=
  match dict_find variavel_semantica var_map with
  | None => None
  | Some por_origem => dict_find origem por_origem
  end.

End Mapping.

(** * Strings as Python uses them in [ensure_columns_exist] *)

Definition lower_ascii (c : ascii) : ascii :=
  let n := nat_of_ascii c in
  if ((65 <=? n) && (n <=? 90))%nat then ascii_of_nat (n + 32) else c.

(** [s.lower()] on ASCII text *)
Fixpoint lower (s : string) : string :=
  match s with
  | EmptyString => EmptyString
  | String c s' => String (lower_ascii c) (lower s')
  end.

(** [s.endswith(suffix)] *)
Fixpoint endswith (s suffix : string) : bool :=
  String.eqb s suffix ||
  match s with
  | EmptyString => false
  | String _ s' => endswith s' suffix
  end.

(** [needle in haystack] *)
Fixpoint contains (needle haystack : string) : bool :=
  String.prefix needle haystack ||
  match haystack with
  | EmptyString => false
  | String _ h' => contains needle h'
  end.

(** SQLite compares identifiers without regard to ASCII case. *)
Definition same_name (a b : string) : bool := String.eqb (lower a) (lower b).


(** * The SQLite client ([src/dao/sqlite_client.py]) *)

Module SqliteClient.

(** ** Values and frames *)

(** What [sqlite3] binds to a placeholder: [None] and NaN become NULL, the
    payload of a float is its binary64 bit pattern. *)
Inductive value : Type :=
| VNull
| VInt (n : Z)
| VReal (bits : Z)
| VText (s : string).

Definition value_eqb (a b : value) : bool :=
  match a, b with
  | VNull, VNull => true
  | VInt x, VInt y => Z.eqb x y
  | VReal x, VReal y => Z.eqb x y
  | VText x, VText y => String.eqb x y
  | _, _ => false
  end.

Definition is_null (v : value) : bool :=
  match v with VNull => true | _ => false end.

(** [sqlite3] binds a Python [int] as a 64-bit signed integer and raises
    [OverflowError] on any other. *)
Definition int64 (v : value) : bool :=
  match v with
  | VInt n => ((- 2 ^ 63 <=? n) && (n <? 2 ^ 63))%Z
  | _ => true
  end.

(** A [pandas.DataFrame]: the column labels and the rows, each row aligned
    with the labels. *)
Record DataFrame : Type := mkFrame {
  columns : list string;
  values : list (list value)
}.

(** [df.empty]: some axis has length zero. *)
Definition df_empty (df : DataFrame) : bool :=
  ((length (columns df) =? 0) || (length (values df) =? 0))%nat.

(** A row read against the labels; a cell the row does not have reads as
    NaN, which [sqlite3] binds as NULL. *)
Fixpoint cells (cols : list string) (r : list value) : dict value :=
  match cols with
  | [] => []
  | c :: cs => (c, hd VNull r) :: cells cs (tl r)
  end.

(** The cells of one row under a label; a label held by several columns
    selects them all. *)
Definition take_label (cols : list string) (r : list value) (label : string)
  : list value :=
  map snd (filter (fun cv => String.eqb (fst cv) label) (cells cols r)).

(** [df[labels].values.tolist()] *)
Definition df_select (labels : list string) (df : DataFrame)
  : list (list value) :=
  map (fun r => flat_map (take_label (columns df) r) labels) (values df).


(** The first cell of a row under a label. *)
Definition df_cell (df : DataFrame) (r : list value) (label : string) : value :=
  hd VNull (take_label (columns df) r label).

(** ** The table *)

Inductive default_expr : Type :=
| NoDefault
| DefaultCurrentTimestamp
| DefaultLiteral (v : value).

Record column : Type := mkColumn {
  cname : string;
  ctype : string;
  cnotnull : bool;
  cdefault : default_expr
}.

(** A stored row, keyed by column name.  A row older than a column has no
    cell for it. *)
Definition row : Type := dict value.

(** The cell a row holds for a name, NULL when it holds none. *)
Definition row_get (c : string) (r : row) : value :=
  match dict_find c r with Some v => v | None => VNull end.

(** The columns of the [CREATE TABLE] statement of [ensure_table_exists],
    in its order.  Its [PRIMARY KEY (origem, identificador_unidade)] clause
    is what [row_key] and [exec_upsert] below act on: a row is filed under
    the pair of its two key cells, and no second row is stored under a pair
    that is taken. *)
Definition base_columns : list column :=
  [ mkColumn "origem" "TEXT" true NoDefault;
    mkColumn "identificador_unidade" "TEXT" true NoDefault;
    mkColumn "created_at" "DATETIME" false DefaultCurrentTimestamp;
    mkColumn "updated_at" "DATETIME" false DefaultCurrentTimestamp ].

(** The table this module manages, as [ensure_table_exists] creates it and
    [ALTER TABLE] extends it: the columns of the [CREATE TABLE] statement
    come first, then the columns added since, in the order of their
    [ALTER TABLE]; the rows are in insertion order.  The table name is
    fixed, so the database is the table or nothing. *)
Record table : Type := mkTable {
  extra_columns : list column;
  trows : list row
}.

Definition table_columns (t : table) : list column :=
  base_columns ++ extra_columns t.

Definition column_names (t : table) : list string :=
  map cname (table_columns t).

Definition database : Type := option table.

(** The declared type of a column, by its exact name. *)
Definition column_type (c : string) (t : table) : option string :=
  option_map ctype (find (fun col => String.eqb c (cname col)) (table_columns t)).

Definition key : Type := (value * value)%type.

Definition row_key (r : row) : key :=
  (row_get "origem" r, row_get "identificador_unidade" r).

Definition key_eqb (a b : key) : bool :=
  value_eqb (fst a) (fst b) && value_eqb (snd a) (snd b).

(** The stored row with a given key. *)
Definition lookup_row (k : key) (t : table) : option row :=
  find (fun r => key_eqb (row_key r) k) (trows t).

(** ** Log records and the world *)

Inductive log_record : Type :=
| DebugTableExists
| InfoTableCreated
| DebugColumnExists (c : string)
| InfoColumnAdded (c ty : string)
| WarningEmptyFrame
| InfoRowsAffected (n : nat)
| ErrorTransaction (e : exn).

(** What a call can change: the database file, the log, and the number of
    connections opened so far. *)
Record world : Type := mkWorld {
  db : database;
  logs : list log_record;
  connections : nat
}.

(** A computation that may raise and that acts on the world. *)
Definition M (A : Type) : Type := world -> result A * world.

Definition ret {A} (a : A) : M A := fun w => (Returned a, w).

Definition raise {A} (e : exn) : M A := fun w => (Raised e, w).

Definition bind {A B} (m : M A) (k : A -> M B) : M B :=
  fun w =>
    match m w with
    | (Returned a, w') => k a w'
    | (Raised e, w') => (Raised e, w')
    end.

Notation "x <- m ;; k" := (bind m (fun x => k))
  (at level 61, m at next level, right associativity).
Notation "m ;;; k" := (bind m (fun _ => k))
  (at level 61, right associativity).

Definition log_emit (l : log_record) : M unit :=
  fun w => (Returned tt,
            {| db := db w; logs := logs w ++ [l]; connections := connections w |}).

(** A statement run on the connection of the enclosing [with] block: what
    it answers, and the database it leaves in the open transaction.  A
    statement that raises may have written before it failed; what it wrote
    stays until the transaction ends. *)
Definition execute (stmt : database -> result unit * database) : M unit :=
  fun w =>
    let (r, d) := stmt (db w) in
    (r, {| db := d; logs := logs w; connections := connections w |}).

(** A single statement of the engine either takes effect or changes
    nothing. *)
Definition statement (stmt : database -> result database)
  : database -> result unit * database :=
  fun d =>
    match stmt d with
    | Returned d' => (Returned tt, d')
    | Raised e => (Raised e, d)
    end.

Definition query {A} (q : database -> A) : M A :=
  fun w => (Returned (q (db w)), w).

(** [for x in xs: body(x)] *)
Fixpoint for_each {A} (xs : list A) (body : A -> M unit) : M unit :=
  match xs with
  | [] => ret tt
  | x :: xs' => body x ;;; for_each xs' body
  end.

(** [with get_connection() as conn: body]: a connection is opened; a body
    that ends normally is committed; a body that raises is rolled back
    ([conn.rollback()] puts back the database the connection was opened
    on), the error is logged and the exception is raised again. *)
Definition get_connection {A} (body : M A) : M A :=
  fun w =>
    let w0 := {| db := db w; logs := logs w;
                 connections := S (connections w) |} in
    match body w0 with
    | (Returned a, w1) => (Returned a, w1)
    | (Raised e, w1) =>
        (Raised e,
         {| db := db w0; logs := logs w1 ++ [ErrorTransaction e];
            connections := connections w1 |})
    end.

(** ** The engine *)

(** The client writes column names and column types into the text of its
    statements as they are, without quotes.  What SQLite makes of such a
    text, and a few other facts of the engine, are left open:
    - [affinity ty v] is the value stored when [v] goes into a column
      declared with type [ty];
    - [bare_name c] tells whether the engine reads the text [c], where a
      statement expects a column name, as the name [c] itself, as it does
      for an identifier that is not one of its reserved words;
    - [column_def c ty] is what the engine reads in
      [ADD COLUMN c ty] when [c] is not such a name or [ty] is not one of
      [plain_types]: the column the text defines, or the error it reports;
    - [max_columns] and [max_variables] are the limits on the columns of a
      table and on the placeholders of a statement.
    The model covers a column definition as far as its name, declared
    type, [NOT NULL] and [DEFAULT]; a [CHECK], [COLLATE], [REFERENCES] or
    [GENERATED] clause is not represented.  A label that is not a bare
    name is refused where it stands in the column list of the [INSERT];
    a name in quotes or between blanks, which SQLite would read as another
    name there, is refused by the model as well. *)
Record engine : Type := mkEngine {
  affinity : string -> value -> value;
  bare_name : string -> bool;
  column_def : string -> string -> result column;
  max_columns : nat;
  max_variables : nat
}.

(** The type names that stand for themselves in a column definition. *)
Definition plain_types : list string :=
  ["TEXT"; "INTEGER"; "REAL"; "DATETIME"; "NUMERIC"; "BLOB"].

Section Engine.

Variable sqlite : engine.

(** ** The statements the client sends *)

(** [SELECT name FROM sqlite_master WHERE type='table' AND name=?] followed
    by [fetchone() is not None] *)
Definition sql_table_listed (d : database) : bool :=
  match d with Some _ => true | None => false end.

(** [PRAGMA table_info(t)], second field of every line; no line for a
    table that does not exist. *)
Definition sql_table_info (d : database) : list string :=
  match d with Some t => column_names t | None => [] end.

(** [CREATE TABLE IF NOT EXISTS t (...)] *)
Definition sql_create_table (d : database) : result database :=
  match d with
  | Some t => Returned (Some t)
  | None => Returned (Some {| extra_columns := []; trows := [] |})
  end.

(** The column the engine reads in the text [ADD COLUMN name ty]: a bare
    name followed by a plain type defines the column of that name and
    type, nullable and without default. *)
Definition read_column_def (name ty : string) : result column :=
  if bare_name sqlite name && str_in ty plain_types
  then Returned (mkColumn name ty false NoDefault)
  else column_def sqlite name ty.

(** What the engine refuses to add to a table that has rows: a [NOT NULL]
    column whose default is NULL, and a column whose default is not a
    constant. *)
Definition refused_on_rows (col : column) : option exn :=
  match cdefault col with
  | DefaultCurrentTimestamp => Some (NonConstantDefault (cname col))
  | NoDefault =>
      if cnotnull col then Some (NotNullWithoutDefault (cname col)) else None
  | DefaultLiteral v =>
      if cnotnull col && is_null v
      then Some (NotNullWithoutDefault (cname col)) else None
  end.

(** [ALTER TABLE t ADD COLUMN name ty].  The table is looked up first.
    The column read from the text is refused when the table is full, when
    a column of its name, whatever the case, is there, and when the table
    has rows that the column could not extend.  The rows are left as they
    are: they have no cell for the new column. *)
Definition sql_add_column (name ty : string) (d : database) : result database :=
  match d with
  | None => Raised NoSuchTable
  | Some t =>
      match read_column_def name ty with
      | Raised e => Raised e
      | Returned col =>
          if (max_columns sqlite <=? length (table_columns t))%nat
          then Raised TooManyColumns
          else if existsb (fun c => same_name (cname col) (cname c))
                          (table_columns t)
          then Raised (DuplicateColumnName (cname col))
          else match trows t, refused_on_rows col with
               | _ :: _, Some e => Raised e
               | _, _ =>
                   Returned (Some {| extra_columns := extra_columns t ++ [col];
                                     trows := trows t |})
               end
      end
  end.

(** The statement built by [upsert_rows]:
    [INSERT INTO t (ins, created_at, updated_at)
     VALUES (?, ..., CURRENT_TIMESTAMP, CURRENT_TIMESTAMP)
     ON CONFLICT(origem, identificador_unidade) DO UPDATE SET
       u = excluded.u, ..., updated_at = CURRENT_TIMESTAMP]. *)
Record upsert_stmt : Type := mkStmt {
  ins_columns : list string;
  upd_columns : list string
}.

(** Compiling the statement.  The text is read first: the column list
    must not start with a comma, every label in it must be a bare name,
    and the placeholders must not be too many.  Then the table must exist,
    and every column named must be a column of the table.  Names are
    matched as they are written: a label that differs from a column by
    case only never gets here, [ensure_columns_exist] has raised on it. *)
Definition prepare (stmt : upsert_stmt) (d : database) : result table :=
  match ins_columns stmt with
  | [] => Raised SyntaxError
  | _ :: _ =>
      if negb (forallb (bare_name sqlite) (ins_columns stmt))
      then Raised SyntaxError
      else if (max_variables sqlite <? length (ins_columns stmt))%nat
      then Raised TooManyVariables
      else
        match d with
        | None => Raised NoSuchTable
        | Some t =>
            match find (fun c => negb (str_in c (column_names t)))
                       (ins_columns stmt) with
            | Some c => Raised (NoSuchColumn c)
            | None => Returned t
            end
        end
  end.

(** The columns of the [INSERT] with the values bound to them; the first
    binding of a name is the one used. *)
Definition bindings (stmt : upsert_stmt) (now : string) (vals : list value)
  : dict value :=
  combine (ins_columns stmt ++ ["created_at"; "updated_at"])
          (vals ++ [VText now; VText now]).

Definition default_value (c : column) (now : string) : value :=
  match cdefault c with
  | NoDefault => VNull
  | DefaultCurrentTimestamp => affinity sqlite (ctype c) (VText now)
  | DefaultLiteral v => affinity sqlite (ctype c) v
  end.


(** The row the [INSERT] would store, [excluded] in the statement. *)
Definition excluded_row (stmt : upsert_stmt) (now : string)
    (vals : list value) (t : table) : row :=
  map (fun c =>
         (cname c,
          match dict_find (cname c) (bindings stmt now vals) with
          | Some v => affinity sqlite (ctype c) v
          | None => default_value c now
          end))
      (table_columns t).

(** The row after [DO UPDATE SET]: [updated_at] takes the current time,
    the columns of the [SET] list take the value of [excluded], which is
    coerced already, every other column keeps its cell, or has none as
    before. *)
Definition updated_cell (stmt : upsert_stmt) (now : string)
    (excl old : row) (c : column) : option value :=
  if String.eqb (cname c) "updated_at"
  then Some (affinity sqlite (ctype c) (VText now))
  else if str_in (cname c) (upd_columns stmt)
       then Some (row_get (cname c) excl)
       else dict_find (cname c) old.

Definition updated_row (stmt : upsert_stmt) (now : string) (excl : row)
    (t : table) (old : row) : row :=
  flat_map (fun c =>
              match updated_cell stmt now excl old c with
              | Some v => [(cname c, v)]
              | None => []
              end)
           (table_columns t).

Fixpoint replace_first (p : row -> bool) (f : row -> row) (rs : list row)
  : list row :=
  match rs with
  | [] => []
  | r :: rs' => if p r then f r :: rs' else r :: replace_first p f rs'
  end.

(** One execution of the statement.  NOT NULL is checked first; a row of
    the same key is then updated in place; otherwise the row is added. *)
Definition exec_upsert (stmt : upsert_stmt) (now : string)
    (vals : list value) (t : table) : result table :=
  let excl := excluded_row stmt now vals t in
  match find (fun c => cnotnull c && is_null (row_get (cname c) excl))
             (table_columns t) with
  | Some c => Raised (NotNullConstraint (cname c))
  | None =>
      let conflicts := fun r => key_eqb (row_key r) (row_key excl) in
      if existsb conflicts (trows t)
      then Returned {| extra_columns := extra_columns t;
                       trows := replace_first conflicts
                                  (updated_row stmt now excl t) (trows t) |}
      else Returned {| extra_columns := extra_columns t;
                       trows := trows t ++ [excl] |}
  end.

(** The rows of [executemany], one execution each, from row [i] on, and
    the table they leave in the open transaction: when a row fails, the
    rows executed before it are in the table.  The values of a row are
    bound first, as many as there are placeholders and each integer on 64
    bits; then the statement runs.  [clock i] is what [CURRENT_TIMESTAMP]
    reads during execution [i]; [io_fault i] tells whether the disk fails
    during it. *)
Fixpoint run_rows (stmt : upsert_stmt) (clock : nat -> string)
    (io_fault : nat -> bool) (i : nat) (rows : list (list value))
    (t : table) : result unit * table :=
  match rows with
  | [] => (Returned tt, t)
  | vals :: rest =>
      if negb (length vals =? length (ins_columns stmt))%nat
      then (Raised IncorrectBindings, t)
      else if negb (forallb int64 vals) then (Raised OverflowError, t)
      else if io_fault i then (Raised DiskIOError, t)
      else match exec_upsert stmt (clock i) vals t with
           | Raised e => (Raised e, t)
           | Returned t' => run_rows stmt clock io_fault (S i) rest t'
           end
  end.

(** [cursor.executemany(query, rows)] *)
Definition sql_executemany (stmt : upsert_stmt) (clock : nat -> string)
    (io_fault : nat -> bool) (rows : list (list value)) (d : database)
  : result unit * database :=
  match prepare stmt d with
  | Raised e => (Raised e, d)
  | Returned t =>
      let (r, t') := run_rows stmt clock io_fault 0 rows t in (r, Some t')
  end.

(** ** The functions of the client *)

Definition table_exists : M bool :=
  get_connection (query sql_table_listed).

Definition get_table_columns : M (list string) :=
  get_connection (query sql_table_info).

Definition ensure_table_exists : M unit :=
  present <- table_exists ;;
  if present then log_emit DebugTableExists
  else get_connection
         (execute (statement sql_create_table) ;;; log_emit InfoTableCreated).

Definition add_column_if_not_exists (column_name column_type : string)
  : M unit :=
  existing_columns <- get_table_columns ;;
  if str_in column_name existing_columns
  then log_emit (DebugColumnExists column_name)
  else get_connection
         (execute (statement (sql_add_column column_name column_type)) ;;;
          log_emit (InfoColumnAdded column_name column_type)).

Definition reserved_columns : list string :=
  ["origem"; "identificador_unidade"; "created_at"; "updated_at"].

Definition integer_keywords : list string :=
  ["idade"; "anos"; "filhos"; "count"].

Definition real_keywords : list string :=
  ["peso"; "renda"; "per_capita"].

(** The type [ensure_columns_exist] chooses from the name of a column. *)
Definition inferred_type (col_name : string) : string :=
  if endswith col_name "_at" || str_in col_name ["created_at"; "updated_at"]
  then "DATETIME"
  else if existsb (fun keyword => contains keyword (lower col_name))
                  integer_keywords
       then "INTEGER"
       else if existsb (fun keyword => contains keyword (lower col_name))
                       real_keywords
            then "REAL"
            else "TEXT".

Definition ensure_columns_exist (column_names : list string) : M unit :=
  existing_columns <- get_table_columns ;;
  for_each column_names (fun col_name =>
    if str_in col_name existing_columns then ret tt
    else if str_in col_name reserved_columns then ret tt
         else add_column_if_not_exists col_name (inferred_type col_name)).

Definition timestamp_columns : list string := ["created_at"; "updated_at"].

(** [upsert_rows(df, pk_columns=...)], with the clock and the disk of the
    [executemany] it runs. *)
Definition upsert_rows (df : DataFrame) (pk_columns : option (list string))
    (clock : nat -> string) (io_fault : nat -> bool) : M unit :=
  if df_empty df then log_emit WarningEmptyFrame
  else
    let pk_columns :=
      match pk_columns with
      | None => ["origem"; "identificador_unidade"]
      | Some pk => pk
      end in
    let missing_pk :=
      filter (fun col => negb (str_in col (columns df))) pk_columns in
    match missing_pk with
    | _ :: _ => raise (ValueError missing_pk)
    | [] =>
        ensure_columns_exist (columns df) ;;;
        let columns_to_insert :=
          filter (fun col => negb (str_in col timestamp_columns)) (columns df) in
        let update_columns :=
          filter (fun col => negb (str_in col pk_columns)) columns_to_insert in
        let rows := df_select columns_to_insert df in
        get_connection
          (execute (sql_executemany (mkStmt columns_to_insert update_columns)
                                    clock io_fault rows) ;;;
           log_emit (InfoRowsAffected (length rows)))
    end.

(** The key of the row that an execution of the statement files: the
    values bound to the two key columns, coerced to TEXT. *)
Definition bound_value (ty c : string) (stmt : upsert_stmt)
    (vals : list value) : value :=
  match dict_find c (combine (ins_columns stmt) vals) with
  | Some v => affinity sqlite ty v
  | None => VNull
  end.

Definition bound_key (stmt : upsert_stmt) (vals : list value) : key :=
  (bound_value "TEXT" "origem" stmt vals,
   bound_value "TEXT" "identificador_unidade" stmt vals).

(** The current time as the audit columns store it. *)
Definition stamp (now : string) : value := affinity sqlite "DATETIME" (VText now).

(** ** Reading the database *)

(** The cell of column [c] in the stored row of key [k], NULL when the
    row has none: a row has a cell for every column the table had when the
    row was written.  What a query reads in a column with a constant
    default that was added later is [read_of]. *)
Definition cell_of (c : string) (k : key) (d : database) : option value :=
  match d with
  | Some t => option_map (row_get c) (lookup_row k t)
  | None => None
  end.


Definition rows_of (d : database) : list row :=
  match d with Some t => trows t | None => [] end.

Definition schema_of (d : database) : option (list column) :=
  option_map table_columns d.

(** The key under which the engine files a row of the frame: both key
    columns have type TEXT. *)
Definition df_row_key (df : DataFrame) (r : list value) : key :=
  (affinity sqlite "TEXT" (df_cell df r "origem"),
   affinity sqlite "TEXT" (df_cell df r "identificador_unidade")).

(** The world after a call, whatever the call answered. *)
Definition after {A} (m : M A) (w : world) : world := snd (m w).

Definition outcome {A} (m : M A) (w : world) : result A := fst (m w).

(** One call of [upsert_rows] with its clock and its disk. *)
Record call : Type := mkCall {
  call_df : DataFrame;
  call_pk : option (list string);
  call_clock : nat -> string;
  call_fault : nat -> bool
}.

Definition run_call (c : call) : M unit :=
  upsert_rows (call_df c) (call_pk c) (call_clock c) (call_fault c).


(** The resolved primary key argument. *)
Definition pk_or_default (pk_columns : option (list string)) : list string :=
  match pk_columns with
  | None => ["origem"; "identificador_unidade"]
  | Some pk => pk
  end.

(** The last and the first row of a list with a given key. *)
Fixpoint last_index (p : list value -> bool) (i : nat)
    (rows : list (list value)) : option nat :=
  match rows with
  | [] => None
  | r :: rest =>
      match last_index p (S i) rest with
      | Some j => Some j
      | None => if p r then Some i else None
      end
  end.

Fixpoint first_index (p : list value -> bool) (i : nat)
    (rows : list (list value)) : option nat :=
  match rows with
  | [] => None
  | r :: rest => if p r then Some i else first_index p (S i) rest
  end.

End Engine.

(** ** Vocabulary of the facts *)

(** The cell of column [c] in the row of key [k] of a table. *)
Definition tcell (c : string) (k : key) (t : table) : option value :=
  option_map (row_get c) (lookup_row k t).

(** The declared type of a column of the database. *)
Definition type_in (c : string) (d : database) : option string :=
  match d with Some t => column_type c t | None => None end.

(** How many columns of the table are called [c]. *)
Definition count_named (c : string) (t : table) : nat :=
  length (filter (fun col => String.eqb c (cname col)) (table_columns t)).

(** The world after [n] more connections. *)
Definition opened (n : nat) (w : world) : world :=
  {| db := db w; logs := logs w; connections := n + connections w |}.

(** The table of [d] is still in [d'], with the columns it had, in their
    order, followed by the columns added since. *)
Definition columns_grow (d d' : database) : Prop :=
  match d with
  | None => d' = None
  | Some t =>
      exists t' added,
        d' = Some t' /\ extra_columns t' = extra_columns t ++ added
  end.

(** Columns may have been added; the rows are the same. *)
Definition grows (w w' : world) : Prop :=
  columns_grow (db w) (db w') /\ rows_of (db w') = rows_of (db w).

(** [c] is one of the names [PRAGMA table_info] lists. *)
Definition listed (c : string) (w : world) : Prop :=
  str_in c (sql_table_info (db w)) = true.

(** One round of the loop of [ensure_columns_exist]. *)
Definition ensure_body (sqlite : engine) (existing_columns : list string)
    (col_name : string) : M unit :=
  if str_in col_name existing_columns then ret tt
  else if str_in col_name reserved_columns then ret tt
       else add_column_if_not_exists sqlite col_name (inferred_type col_name).

(** What the loop of [ensure_columns_exist] keeps about the columns called
    [c]: there is at most one, and it has the type inferred from [c]. *)
Definition typed_once (c : string) (w : world) : Prop :=
  match db w with
  | Some t =>
      count_named c t <= 1 /\
      forall col, In col (table_columns t) -> cname col = c ->
                  ctype col = inferred_type c
  | None => True
  end.


(** The labels [upsert_rows] inserts: all but the audit columns. *)
Definition inserted_columns (df : DataFrame) : list string :=
  filter (fun col => negb (str_in col timestamp_columns)) (columns df).

(** The values [upsert_rows] binds for a row of the frame. *)
Definition selected (df : DataFrame) (r : list value) : list value :=
  flat_map (take_label (columns df) r) (inserted_columns df).

(** The labels of the key that the frame lacks. *)
Definition missing_pk (df : DataFrame) (pk : list string) : list string :=
  filter (fun col => negb (str_in col (columns df))) pk.

(** The statement [upsert_rows] builds for a frame and a key. *)
Definition statement_for (df : DataFrame) (pk : list string) : upsert_stmt :=
  mkStmt (inserted_columns df)
         (filter (fun col => negb (str_in col pk)) (inserted_columns df)).

(** A statement as [upsert_rows] builds them: the audit columns are not
    among the inserted columns, and [created_at] is not updated. *)
Definition stmt_ok (stmt : upsert_stmt) : Prop :=
  ~ In "created_at" (ins_columns stmt) /\
  ~ In "updated_at" (ins_columns stmt) /\
  ~ In "created_at" (upd_columns stmt).

(** The client as a caller sees it: one constructor for each function. *)
Inductive operation : Type :=
| OpTableExists
| OpGetTableColumns
| OpEnsureTableExists
| OpAddColumnIfNotExists (column_name column_type : string)
| OpEnsureColumnsExist (column_names : list string)
| OpUpsertRows (c : call).

(** The world after an operation, the caller going on when it raised. *)
Definition run_operation (sqlite : engine) (op : operation) (w : world)
  : world :=
  match op with
  | OpTableExists => after table_exists w
  | OpGetTableColumns => after get_table_columns w
  | OpEnsureTableExists => after ensure_table_exists w
  | OpAddColumnIfNotExists name ty =>
      after (add_column_if_not_exists sqlite name ty) w
  | OpEnsureColumnsExist names => after (ensure_columns_exist sqlite names) w
  | OpUpsertRows c => after (run_call sqlite c) w
  end.

Definition run_operations (sqlite : engine) (ops : list operation)
    (w : world) : world :=
  fold_left (fun w op => run_operation sqlite op w) ops w.

(** The keys of the stored rows, in the order of the rows. *)
Definition stored_keys (d : database) : list key := map row_key (rows_of d).

(** A key filed into a list of keys: a key that is there stays where it
    is, a new key goes to the end. *)
Definition add_key (k : key) (ks : list key) : list key :=
  if existsb (fun k' => key_eqb k' k) ks then ks else ks ++ [k].

(** No two stored rows have the same key. *)
Definition keys_unique (d : database) : Prop := NoDup (stored_keys d).

(** No stored row has a NULL in a key column. *)
Definition keys_not_null (d : database) : Prop :=
  forall k, In k (stored_keys d) ->
            is_null (fst k) = false /\ is_null (snd k) = false.

(** A column as [ALTER TABLE ADD COLUMN] makes them: nullable, without a
    default. *)
Definition plain_column (c : column) : Prop :=
  cnotnull c = false /\ cdefault c = NoDefault.

(** The columns added to the table are plain, and no two columns of the
    table have the same name up to case. *)
Definition schema_ok (d : database) : Prop :=
  match d with
  | Some t =>
      Forall plain_column (extra_columns t) /\
      NoDup (map lower (column_names t))
  | None => True
  end.

(** No two columns of the table have the same name up to case. *)
Definition names_distinct (d : database) : Prop :=
  match d with
  | Some t => NoDup (map lower (column_names t))
  | None => True
  end.

(** A column asked for by a bare name with a plain type. *)
Definition plain_request (sqlite : engine) (name ty : string) : bool :=
  bare_name sqlite name && str_in ty plain_types.

(** A name [ensure_columns_exist] skips, or asks for as a bare name. *)
Definition plain_label (sqlite : engine) (c : string) : bool :=
  str_in c reserved_columns || bare_name sqlite c.

(** An operation that sends [ALTER TABLE] for plain requests only. *)
Definition asks_plain (sqlite : engine) (op : operation) : bool :=
  match op with
  | OpAddColumnIfNotExists name ty => plain_request sqlite name ty
  | OpEnsureColumnsExist names => forallb (plain_label sqlite) names
  | OpUpsertRows c => forallb (plain_label sqlite) (columns (call_df c))
  | _ => true
  end.

(** Every cell of every stored row belongs to a column of the table. *)
Definition cells_in_schema (d : database) : Prop :=
  match d with
  | Some t =>
      forall r c, In r (trows t) -> In c (dict_keys r) ->
                  In c (column_names t)
  | None => True
  end.


(** ** Data for the examples *)

(** What an identifier of SQLite starts with: a letter, an underscore or
    a byte of a character beyond ASCII; and what it goes on with: these,
    a digit or a dollar sign. *)
Definition id_start (c : ascii) : bool :=
  let n := nat_of_ascii c in
  ((65 <=? n) && (n <=? 90) || (97 <=? n) && (n <=? 122) || (n =? 95)
   || (128 <=? n))%nat.

Definition id_char (c : ascii) : bool :=
  let n := nat_of_ascii c in
  id_start c || ((48 <=? n) && (n <=? 57) || (n =? 36))%nat.

Fixpoint all_chars (p : ascii -> bool) (s : string) : bool :=
  match s with
  | EmptyString => true
  | String c s' => p c && all_chars p s'
  end.

(** The keywords that SQLite 3.40 does not take for a name. *)
Definition reserved_words : list string :=
  [ "add"; "all"; "alter"; "and"; "as"; "autoincrement"; "between"; "case";
    "check"; "collate"; "commit"; "constraint"; "create"; "default";
    "deferrable"; "delete"; "distinct"; "drop"; "else"; "escape"; "except";
    "exists"; "foreign"; "from"; "group"; "having"; "in"; "index"; "insert";
    "intersect"; "into"; "is"; "isnull"; "join"; "limit"; "not"; "nothing";
    "notnull"; "null"; "on"; "or"; "order"; "primary"; "references";
    "returning"; "select"; "set"; "table"; "then"; "to"; "transaction";
    "union"; "unique"; "update"; "using"; "values"; "when"; "where" ].

(** The texts SQLite 3.40 reads as the name they spell. *)
Definition identifier (s : string) : bool :=
  match s with
  | EmptyString => false
  | String c s' => id_start c && all_chars id_char s'
  end
  && negb (str_in (lower s) reserved_words).

(** Of the other column definitions, the few that the examples use, as
    SQLite 3.40 reads them; any other is refused here. *)
Definition example_column_def (name ty : string) : result column :=
  if String.eqb name "estado civil" && String.eqb ty "TEXT"
  then Returned (mkColumn "estado" "civil TEXT" false NoDefault)
  else if identifier name && String.eqb ty "TEXT DEFAULT 'x'"
  then Returned (mkColumn name "TEXT" false (DefaultLiteral (VText "x")))
  else if identifier name && String.eqb ty "INTEGER NOT NULL"
  then Returned (mkColumn name "INTEGER" true NoDefault)
  else Raised SyntaxError.

(** An engine that stores every value as it is bound, with the names and
    the limits of a stock SQLite 3.40. *)
Definition no_coercion : engine :=
  {| affinity := fun ty v => v;
     bare_name := identifier;
     column_def := example_column_def;
     max_columns := 2000;
     max_variables := 32 * 1024 - 2 |}.


(** A disk that never fails. *)
Definition no_fault (i : nat) : bool := false.

Definition example_clock (i : nat) : string :=
  match i with 0 => "2024-01-01 10:00:00" | _ => "2024-01-01 10:00:01" end.

(** The world after [ensure_table_exists] on a new file. *)
Definition fresh_world : world :=
  {| db := Some {| extra_columns := []; trows := [] |};
     logs := []; connections := 0 |}.

(** A frame with a label and no row. *)
Definition frame_without_rows : DataFrame := mkFrame ["idade"] [].

(** A first batch, and the world after it was filed at ten o'clock. *)
Definition first_frame : DataFrame :=
  mkFrame ["origem"; "identificador_unidade"; "idade"]
          [[VText "2013"; VText "UPA001"; VInt 30]].

Definition stored_world : world :=
  after (upsert_rows no_coercion first_frame None
           (fun _ => "2024-01-01 10:00:00") no_fault) fresh_world.

Definition stored_key : key := (VText "2013", VText "UPA001").

(** A later batch for the same key, with another column. *)
Definition second_frame : DataFrame :=
  mkFrame ["origem"; "identificador_unidade"; "sexo"]
          [[VText "2013"; VText "UPA001"; VText "2"]].

(** A batch with a new column whose second row has no [origem]. *)
Definition faulty_frame : DataFrame :=
  mkFrame ["origem"; "identificador_unidade"; "renda"]
          [[VText "2013"; VText "UPA001"; VInt 1500];
           [VNull; VText "UPA002"; VInt 2000]].


(** The batch of the schema growth scenario; the income is 1500.5. *)
Definition income_frame : DataFrame :=
  mkFrame ["origem"; "identificador_unidade"; "renda_per_capita"]
          [[VText "2013"; VText "UPA001"; VReal 4654314084236263424]].

(** A file without the table. *)
Definition new_file : world := {| db := None; logs := []; connections := 0 |}.

(** What the first test script does to the store, with the values of its
    frames reduced to two columns. *)
Definition example_session : list operation :=
  [ OpTableExists;
    OpEnsureTableExists;
    OpGetTableColumns;
    OpEnsureColumnsExist ["origem"; "identificador_unidade"; "idade"];
    OpUpsertRows (mkCall first_frame None example_clock no_fault);
    OpUpsertRows (mkCall second_frame None example_clock no_fault);
    OpAddColumnIfNotExists "nova_coluna_teste" "TEXT" ].

(** A frame that supplies a NULL where the key needs a value. *)
Definition keyless_frame : DataFrame :=
  mkFrame ["origem"; "identificador_unidade"; "idade"]
          [[VText "2013"; VNull; VInt 52]].




(** A frame whose label differs from a stored column by case only. *)
Definition capital_frame : DataFrame :=
  mkFrame ["origem"; "identificador_unidade"; "Idade"]
          [[VText "2013"; VText "UPA001"; VInt 31]].


(** * Facts about the client *)

Lemma str_in_In (x : string) (xs : list string) :
  str_in x xs = true <-> In x xs.
Proof.
  unfold str_in. rewrite existsb_exists. split.
  - intros [y [Hy Heq]]. apply String.eqb_eq in Heq. now subst.
  - intros H. exists x. split; [assumption | apply String.eqb_refl].
Qed.

Lemma str_in_false (x : string) (xs : list string) :
  str_in x xs = false <-> ~ In x xs.
Proof.
  rewrite <- str_in_In. destruct (str_in x xs); split; intro H;
    try reflexivity; try discriminate; try (exfalso; now apply H).
Qed.

Section Validation.

Variable sqlite : engine.

(** ** Validation before any statement *)

Lemma df_empty_no_rows (df : DataFrame) :
  values df = [] -> df_empty df = true.
Proof.
  intros H. unfold df_empty. rewrite H. simpl. apply orb_true_r.
Qed.

(** C7: a frame without rows makes [upsert_rows] return at once: the
    warning is logged, no connection is opened, and the database (schema
    and rows) is the one before the call. *)
Theorem upsert_rows_empty_batch (df : DataFrame) (pk : option (list string))
    (clock : nat -> string) (io_fault : nat -> bool) (w : world) :
  values df = [] ->
  upsert_rows sqlite df pk clock io_fault w =
    (Returned tt,
     {| db := db w; logs := logs w ++ [WarningEmptyFrame];
        connections := connections w |}).
Proof.
  intros H. unfold upsert_rows. rewrite (df_empty_no_rows df H). reflexivity.
Qed.

Lemma missing_pk_nonempty (cols pk : list string) (c : string) :
  In c pk -> ~ In c cols ->
  filter (fun col => negb (str_in col cols)) pk <> [].
Proof.
  intros Hin Hout Hnil.
  assert (Hc : In c (filter (fun col => negb (str_in col cols)) pk)).
  { apply filter_In. split; [assumption |].
    apply negb_true_iff. now apply str_in_false. }
  rewrite Hnil in Hc. contradiction.
Qed.

(** X26: the empty check comes first.  A frame that lacks a key column
    raises [ValueError], naming the key columns it lacks, with the world
    untouched (no connection, no log, same database) when it is not empty,
    and returns with the warning of the empty frame when it is. *)
Theorem upsert_rows_missing_key_columns (df : DataFrame)
    (pk : option (list string)) (clock : nat -> string)
    (io_fault : nat -> bool) (w : world) (c : string) :
  In c (pk_or_default pk) -> ~ In c (columns df) ->
  let missing :=
    filter (fun col => negb (str_in col (columns df))) (pk_or_default pk) in
  missing <> [] /\
  upsert_rows sqlite df pk clock io_fault w =
    if df_empty df
    then (Returned tt,
          {| db := db w; logs := logs w ++ [WarningEmptyFrame];
             connections := connections w |})
    else (Raised (ValueError missing), w).
Proof.
  intros Hin Hout missing.
  assert (Hne : missing <> []) by (eapply missing_pk_nonempty; eassumption).
  split; [assumption |].
  unfold upsert_rows. destruct (df_empty df); [reflexivity |].
  fold (pk_or_default pk). fold missing.
  destruct missing; [congruence | reflexivity].
Qed.

End Validation.

Lemma upsert_rows_empty_batch_witness :
  values frame_without_rows = [] /\
  upsert_rows no_coercion frame_without_rows None example_clock no_fault
      fresh_world =
    (Returned tt,
     {| db := db fresh_world; logs := logs fresh_world ++ [WarningEmptyFrame];
        connections := connections fresh_world |}).
Proof.
  split; [reflexivity | apply upsert_rows_empty_batch; reflexivity].
Defined.

Lemma upsert_rows_missing_key_columns_witness :
  In "origem" (pk_or_default None) /\
  ~ In "origem" (columns (mkFrame ["idade"] [[VInt 30]])) /\
  upsert_rows no_coercion (mkFrame ["idade"] [[VInt 30]]) None example_clock
      no_fault fresh_world =
    (Raised (ValueError ["origem"; "identificador_unidade"]), fresh_world).
Proof.
  assert (Hin : In "origem" (pk_or_default None)) by (simpl; auto).
  assert (Hout : ~ In "origem" (columns (mkFrame ["idade"] [[VInt 30]]))).
  { simpl. intros [H | []]. discriminate. }
  split; [exact Hin | split; [exact Hout |]].
  exact (proj2 (upsert_rows_missing_key_columns no_coercion
                  (mkFrame ["idade"] [[VInt 30]]) None example_clock no_fault
                  fresh_world "origem" Hin Hout)).
Defined.

(** C6: the docstring of [upsert_rows] promises [ValueError] for a frame
    that is empty or lacks the columns of the key.  On the frame with the
    one column [idade] and no row, which lacks both key columns, the call
    does not raise: it logs the warning of the empty frame and returns,
    the database as it was and no connection opened. *)
Lemma upsert_rows_missing_key_not_raised :
  missing_pk frame_without_rows (pk_or_default None) =
    ["origem"; "identificador_unidade"] /\
  upsert_rows no_coercion frame_without_rows None example_clock no_fault
      fresh_world =
    (Returned tt,
     {| db := db fresh_world;
        logs := logs fresh_world ++ [WarningEmptyFrame];
        connections := connections fresh_world |}).
Proof. split; reflexivity. Qed.

(** ** The schema operations *)

Lemma get_table_columns_eq (w : world) :
  get_table_columns w = (Returned (sql_table_info (db w)), opened 1 w).
Proof. reflexivity. Qed.

Lemma table_exists_eq (w : world) :
  table_exists w = (Returned (sql_table_listed (db w)), opened 1 w).
Proof. reflexivity. Qed.

Lemma ensure_table_exists_eq (w : world) :
  ensure_table_exists w =
    match db w with
    | Some t =>
        (Returned tt,
         {| db := Some t; logs := logs w ++ [DebugTableExists];
            connections := 1 + connections w |})
    | None =>
        (Returned tt,
         {| db := Some {| extra_columns := []; trows := [] |};
            logs := logs w ++ [InfoTableCreated];
            connections := 2 + connections w |})
    end.
Proof.
  unfold ensure_table_exists, bind. rewrite table_exists_eq.
  destruct w as [[t |] l n]; reflexivity.
Qed.

Lemma add_column_if_not_exists_eq (sqlite : engine) (name ty : string) (w : world) :
  add_column_if_not_exists sqlite name ty w =
    if str_in name (sql_table_info (db w))
    then (Returned tt,
          {| db := db w; logs := logs w ++ [DebugColumnExists name];
             connections := 1 + connections w |})
    else match sql_add_column sqlite name ty (db w) with
         | Returned d =>
             (Returned tt,
              {| db := d; logs := logs w ++ [InfoColumnAdded name ty];
                 connections := 2 + connections w |})
         | Raised e =>
             (Raised e,
              {| db := db w; logs := logs w ++ [ErrorTransaction e];
                 connections := 2 + connections w |})
         end.
Proof.
  unfold add_column_if_not_exists, bind. rewrite get_table_columns_eq.
  destruct (str_in name (sql_table_info (db w))); [reflexivity |].
  unfold get_connection, bind, execute, statement.
  cbn [db logs connections opened].
  destruct (sql_add_column sqlite name ty (db w)); reflexivity.
Qed.

(** What [ALTER TABLE] did when it took effect: the table was there and
    had room, the engine read a column in the text, no column of the table
    had its name, and the column was added after the others. *)
Lemma sql_add_column_returned (sqlite : engine) (name ty : string)
    (d d' : database) :
  sql_add_column sqlite name ty d = Returned d' ->
  exists t col,
    d = Some t /\
    read_column_def sqlite name ty = Returned col /\
    length (table_columns t) < max_columns sqlite /\
    existsb (fun c => same_name (cname col) (cname c)) (table_columns t)
      = false /\
    d' = Some {| extra_columns := extra_columns t ++ [col];
                 trows := trows t |}.
Proof.
  unfold sql_add_column. destruct d as [t |]; [| discriminate].
  destruct (read_column_def sqlite name ty) as [col | e]; [| discriminate].
  destruct (max_columns sqlite <=? length (table_columns t))%nat eqn:Hmax;
    [discriminate |].
  apply Nat.leb_gt in Hmax.
  destruct (existsb _ _) eqn:Hclash; [discriminate |].
  intros H. exists t, col.
  assert (Hd : d' = Some {| extra_columns := extra_columns t ++ [col];
                            trows := trows t |}).
  { destruct (trows t); destruct (refused_on_rows col);
      try discriminate; now injection H as <-. }
  auto.
Qed.

(** A bare name with a plain type is read as it is written. *)
Lemma read_column_def_plain (sqlite : engine) (name ty : string) :
  bare_name sqlite name = true -> In ty plain_types ->
  read_column_def sqlite name ty = Returned (mkColumn name ty false NoDefault).
Proof.
  intros Hb Ht. unfold read_column_def. rewrite Hb.
  apply str_in_In in Ht. now rewrite Ht.
Qed.

(** [ALTER TABLE] for a bare name with a plain type. *)
Lemma sql_add_column_plain_eq (sqlite : engine) (name ty : string)
    (t : table) :
  bare_name sqlite name = true -> In ty plain_types ->
  sql_add_column sqlite name ty (Some t) =
    if (max_columns sqlite <=? length (table_columns t))%nat
    then Raised TooManyColumns
    else if existsb (fun c => same_name name (cname c)) (table_columns t)
         then Raised (DuplicateColumnName name)
         else Returned
                (Some {| extra_columns :=
                           extra_columns t ++
                           [mkColumn name ty false NoDefault];
                         trows := trows t |}).
Proof.
  intros Hb Hty. unfold sql_add_column.
  rewrite (read_column_def_plain sqlite name ty Hb Hty). cbn [cname].
  destruct (max_columns sqlite <=? length (table_columns t))%nat;
    [reflexivity |].
  destruct (existsb _ (table_columns t)); [reflexivity |].
  cbn. now destruct (trows t).
Qed.

Lemma sql_add_column_listed (sqlite : engine) (name ty : string)
    (d d' : database) :
  sql_add_column sqlite name ty d = Returned d' ->
  exists col,
    read_column_def sqlite name ty = Returned col /\
    str_in (cname col) (sql_table_info d') = true.
Proof.
  intros H. apply sql_add_column_returned in H.
  destruct H as [t [col [_ [Hread [_ [_ ->]]]]]].
  exists col. split; [exact Hread |]. apply str_in_In.
  unfold sql_table_info, column_names, table_columns. cbn [extra_columns].
  rewrite !map_app. apply in_or_app. right. apply in_or_app. right.
  simpl. now left.
Qed.

(** ** Suffixes and substrings *)

Lemma prefix_refl (s : string) : String.prefix s s = true.
Proof.
  induction s as [| c s IH]; [reflexivity |].
  simpl. destruct (ascii_dec c c); [assumption | congruence].
Qed.

Lemma endswith_contains (s k : string) :
  endswith s k = true -> contains k s = true.
Proof.
  induction s as [| c s IH]; cbn [endswith lower]; intros H.
  - rewrite orb_false_r in H. apply String.eqb_eq in H. subst k. reflexivity.
  - apply orb_true_iff in H. destruct H as [H | H].
    + apply String.eqb_eq in H. subst k. cbn [contains]. rewrite prefix_refl. reflexivity.
    + cbn [contains]. rewrite (IH H). apply orb_true_r.
Qed.

Lemma endswith_length (s k : string) :
  endswith s k = true -> String.length k <= String.length s.
Proof.
  induction s as [| c s IH]; cbn [endswith lower]; intros H.
  - rewrite orb_false_r in H. apply String.eqb_eq in H. subst k. simpl. lia.
  - apply orb_true_iff in H. destruct H as [H | H].
    + apply String.eqb_eq in H. subst k. simpl. lia.
    + specialize (IH H). cbn [String.length]. lia.
Qed.

(** Two suffixes of one string: the shorter is a suffix of the longer. *)
Lemma endswith_nested (s a b : string) :
  endswith s a = true -> endswith s b = true ->
  String.length a <= String.length b -> endswith b a = true.
Proof.
  induction s as [| c s IH]; cbn [endswith]; intros Ha Hb Hlen.
  - rewrite orb_false_r in Ha, Hb.
    apply String.eqb_eq in Ha. apply String.eqb_eq in Hb. subst a b.
    reflexivity.
  - apply orb_true_iff in Ha. apply orb_true_iff in Hb.
    destruct Hb as [Hb | Hb].
    + apply String.eqb_eq in Hb. subst b. cbn [endswith].
      destruct Ha as [Ha | Ha]; [now rewrite Ha | rewrite Ha; apply orb_true_r].
    + destruct Ha as [Ha | Ha].
      * apply String.eqb_eq in Ha. subst a.
        apply endswith_length in Hb. simpl in Hlen. lia.
      * now apply IH.
Qed.

Lemma endswith_lower (s a : string) :
  endswith s a = true -> endswith (lower s) (lower a) = true.
Proof.
  induction s as [| c s IH]; cbn [endswith lower]; intros H.
  - rewrite orb_false_r in H. apply String.eqb_eq in H. subst a. reflexivity.
  - apply orb_true_iff in H. destruct H as [H | H].
    + apply String.eqb_eq in H. subst a. cbn [lower endswith].
      rewrite String.eqb_refl. reflexivity.
    + rewrite (IH H). apply orb_true_r.
Qed.

Lemma integer_suffix_not_at (name k : string) :
  In k integer_keywords -> endswith (lower name) k = true ->
  endswith name "_at" = false.
Proof.
  intros Hk Hend. destruct (endswith name "_at") eqn:Hat; [| reflexivity].
  apply endswith_lower in Hat. change (lower "_at") with "_at" in Hat.
  assert (Hn : endswith k "_at" = true).
  { apply (endswith_nested (lower name)); try assumption.
    simpl in Hk. destruct Hk as [<- | [<- | [<- | [<- | []]]]]; simpl; lia. }
  simpl in Hk. destruct Hk as [<- | [<- | [<- | [<- | []]]]]; discriminate.
Qed.

(** A name that ends, in whatever case, in one of the integer keywords is
    typed INTEGER. *)
Lemma integer_suffix_inferred (name k : string) :
  In k integer_keywords -> endswith (lower name) k = true ->
  inferred_type name = "INTEGER".
Proof.
  intros Hk Hend. unfold inferred_type.
  pose proof (integer_suffix_not_at name k Hk Hend) as Hat. rewrite Hat.
  assert (Hts : str_in name ["created_at"; "updated_at"] = false).
  { apply str_in_false. intros [<- | [<- | []]]; discriminate. }
  rewrite Hts. cbn [orb].
  assert (Hex : existsb (fun keyword => contains keyword (lower name))
                        integer_keywords = true).
  { apply existsb_exists. exists k. split; [assumption |].
    now apply endswith_contains. }
  now rewrite Hex.
Qed.

(** ** Columns are only ever added *)

Lemma columns_grow_refl (d : database) : columns_grow d d.
Proof.
  destruct d as [t |]; simpl; [| reflexivity].
  exists t, []. now rewrite app_nil_r.
Qed.

Lemma columns_grow_trans (d1 d2 d3 : database) :
  columns_grow d1 d2 -> columns_grow d2 d3 -> columns_grow d1 d3.
Proof.
  destruct d1 as [t1 |]; simpl.
  - intros [t2 [a2 [-> H2]]]. simpl. intros [t3 [a3 [-> H3]]].
    exists t3, (a2 ++ a3). split; [reflexivity |].
    now rewrite H3, H2, app_assoc.
  - intros ->. simpl. auto.
Qed.

Lemma grows_refl (w : world) : grows w w.
Proof. split; [apply columns_grow_refl | reflexivity]. Qed.

Lemma grows_same_db (w w' : world) : db w' = db w -> grows w w'.
Proof.
  intros H. unfold grows. rewrite H. split;
    [apply columns_grow_refl | reflexivity].
Qed.

Lemma grows_trans (w1 w2 w3 : world) : grows w1 w2 -> grows w2 w3 -> grows w1 w3.
Proof.
  intros [H1 R1] [H2 R2]. split.
  - eapply columns_grow_trans; eassumption.
  - congruence.
Qed.

Lemma grows_listed (c : string) (w w' : world) :
  grows w w' -> listed c w -> listed c w'.
Proof.
  unfold grows, listed, columns_grow. intros [H _].
  destruct (db w) as [t |]; [| discriminate].
  destruct H as [t' [added [-> Hex]]].
  unfold sql_table_info, column_names, table_columns. rewrite Hex.
  intros Hin. apply str_in_In. apply str_in_In in Hin.
  rewrite !map_app, app_assoc. apply in_or_app. left.
  now rewrite <- map_app.
Qed.

(** A loop keeps what each of its rounds keeps. *)
Lemma for_each_keeps {A} (I : world -> Prop) (body : A -> M unit) :
  (forall x w, I w -> I (after (body x) w)) ->
  forall xs w, I w -> I (after (for_each xs body) w).
Proof.
  intros Hbody xs. induction xs as [| x xs IH]; intros w HI; [exact HI |].
  unfold after. cbn [for_each]. unfold bind.
  specialize (Hbody x w HI). unfold after in Hbody.
  destruct (body x w) as [[[] | e] w1]; cbn [snd] in *; [| exact Hbody].
  apply IH. exact Hbody.
Qed.

(** The same for what holds of the rounds of the list only. *)
Lemma for_each_keeps_in {A} (I : world -> Prop) (body : A -> M unit)
    (xs : list A) :
  (forall x w, In x xs -> I w -> I (after (body x) w)) ->
  forall w, I w -> I (after (for_each xs body) w).
Proof.
  induction xs as [| x xs IH]; intros Hbody w HI; [exact HI |].
  unfold after. cbn [for_each]. unfold bind.
  pose proof (Hbody x w (or_introl eq_refl) HI) as Hx. unfold after in Hx.
  destruct (body x w) as [[[] | e] w1]; cbn [snd] in *; [| exact Hx].
  apply IH; [| exact Hx]. intros y w0 Hy. apply Hbody. now right.
Qed.

Lemma add_column_grows (sqlite : engine) (name ty : string) (w : world) :
  grows w (after (add_column_if_not_exists sqlite name ty) w).
Proof.
  unfold after. rewrite add_column_if_not_exists_eq.
  destruct (str_in name (sql_table_info (db w)));
    [now apply grows_same_db |].
  destruct (sql_add_column sqlite name ty (db w)) as [d | e] eqn:Hadd;
    [| now apply grows_same_db].
  apply sql_add_column_returned in Hadd.
  destruct Hadd as [t [col [Hdb [_ [_ [_ ->]]]]]].
  split; cbn [snd db]; rewrite Hdb; [| reflexivity].
  simpl. eexists. eexists. split; reflexivity.
Qed.

Lemma ensure_columns_exist_eq (sqlite : engine) (names : list string) (w : world) :
  ensure_columns_exist sqlite names w =
    for_each names (ensure_body sqlite (sql_table_info (db w))) (opened 1 w).
Proof. reflexivity. Qed.

Lemma ensure_body_grows (sqlite : engine) (existing : list string) (c : string) (w : world) :
  grows w (after (ensure_body sqlite existing c) w).
Proof.
  unfold ensure_body.
  destruct (str_in c existing); [apply grows_refl |].
  destruct (str_in c reserved_columns); [apply grows_refl |].
  apply add_column_grows.
Qed.

Lemma ensure_columns_exist_grows (sqlite : engine) (names : list string) (w : world) :
  grows w (after (ensure_columns_exist sqlite names) w).
Proof.
  unfold after. rewrite ensure_columns_exist_eq.
  apply (for_each_keeps (grows w)).
  - intros x w1 H1. eapply grows_trans; [exact H1 | apply ensure_body_grows].
  - now apply grows_same_db.
Qed.

(** ** Rows: one execution of the statement *)

Lemma value_eqb_eq (a b : value) : value_eqb a b = true <-> a = b.
Proof.
  destruct a, b; simpl; split; intros H; try discriminate; try reflexivity.
  - apply Z.eqb_eq in H. now subst.
  - injection H as ->. apply Z.eqb_refl.
  - apply Z.eqb_eq in H. now subst.
  - injection H as ->. apply Z.eqb_refl.
  - apply String.eqb_eq in H. now subst.
  - injection H as ->. apply String.eqb_refl.
Qed.

Lemma key_eqb_eq (a b : key) : key_eqb a b = true <-> a = b.
Proof.
  destruct a as [a1 a2], b as [b1 b2]. unfold key_eqb. cbn [fst snd].
  rewrite andb_true_iff, !value_eqb_eq. split.
  - intros [-> ->]. reflexivity.
  - intros H. injection H as -> ->. auto.
Qed.

Lemma key_eqb_refl (a : key) : key_eqb a a = true.
Proof. now apply key_eqb_eq. Qed.

Lemma key_eqb_neq (a b : key) : key_eqb a b = false <-> a <> b.
Proof.
  rewrite <- key_eqb_eq. destruct (key_eqb a b); split; intros H;
    try reflexivity; try discriminate; try (exfalso; now apply H).
Qed.

(** A row built column by column reads, at a name, what was built for the
    first column of that name. *)
Lemma row_get_built (f : column -> value) (cols : list column) (c : string) :
  row_get c (map (fun col => (cname col, f col)) cols) =
    match find (fun col => String.eqb c (cname col)) cols with
    | Some col => f col
    | None => VNull
    end.
Proof.
  unfold row_get. induction cols as [| col cols IH]; [reflexivity |].
  cbn [map dict_find find]. destruct (String.eqb c (cname col)); [reflexivity |].
  exact IH.
Qed.

(** A row built from the cells that some columns have reads, at a name,
    the cell of the first column of that name; columns of one name have a
    cell together or not at all. *)
Lemma row_get_cells (cell : column -> option value) (cols : list column)
    (c : string) :
  (forall col col', cname col = cname col' -> cell col = None ->
                    cell col' = None) ->
  row_get c (flat_map (fun col => match cell col with
                                  | Some v => [(cname col, v)]
                                  | None => []
                                  end) cols) =
    match find (fun col => String.eqb c (cname col)) cols with
    | Some col => match cell col with Some v => v | None => VNull end
    | None => VNull
    end.
Proof.
  intros Hsame. unfold row_get.
  assert (Hnone : forall col0 cols0,
            cell col0 = None -> cname col0 = c ->
            dict_find c (flat_map (fun col => match cell col with
                                              | Some v => [(cname col, v)]
                                              | None => []
                                              end) cols0) = None).
  { intros col0 cols0 H0 Hc. induction cols0 as [| col cols0 IH];
      [reflexivity |].
    cbn [flat_map]. destruct (cell col) as [v |] eqn:E; [| exact IH].
    cbn [app dict_find]. destruct (String.eqb c (cname col)) eqn:Ec;
      [| exact IH].
    apply String.eqb_eq in Ec.
    rewrite (Hsame col0 col) in E by congruence. discriminate. }
  induction cols as [| col cols IH]; [reflexivity |].
  cbn [flat_map find]. destruct (String.eqb c (cname col)) eqn:Ec.
  - apply String.eqb_eq in Ec. destruct (cell col) as [v |] eqn:E.
    + cbn [app dict_find]. rewrite Ec, String.eqb_refl. reflexivity.
    + cbn [app]. now rewrite (Hnone col cols E (eq_sym Ec)).
  - destruct (cell col) as [v |]; [| exact IH].
    cbn [app dict_find]. rewrite Ec. exact IH.
Qed.

Lemma find_named (c : string) (cols : list column) :
  In c (map cname cols) ->
  exists col, find (fun col => String.eqb c (cname col)) cols = Some col /\
              cname col = c.
Proof.
  induction cols as [| col cols IH]; [intros [] |].
  cbn [map find]. intros [H | H].
  - exists col. rewrite H, String.eqb_refl. auto.
  - destruct (String.eqb c (cname col)) eqn:E.
    + exists col. apply String.eqb_eq in E. auto.
    + auto.
Qed.

Lemma lookup_replace_first (k0 k : key) (f : row -> row) (rs : list row) :
  (forall r, row_key r = k0 -> row_key (f r) = k0) ->
  find (fun r => key_eqb (row_key r) k)
       (replace_first (fun r => key_eqb (row_key r) k0) f rs) =
    if key_eqb k0 k
    then option_map f (find (fun r => key_eqb (row_key r) k0) rs)
    else find (fun r => key_eqb (row_key r) k) rs.
Proof.
  intros Hf. induction rs as [| r rs IH].
  - simpl. now destruct (key_eqb k0 k).
  - cbn [replace_first find].
    destruct (key_eqb (row_key r) k0) eqn:E0.
    + apply key_eqb_eq in E0. cbn [find option_map].
      rewrite (Hf r E0), E0. now destruct (key_eqb k0 k).
    + cbn [find]. destruct (key_eqb (row_key r) k) eqn:Ek.
      * apply key_eqb_eq in Ek. subst k. rewrite key_eqb_neq in E0.
        destruct (key_eqb k0 (row_key r)) eqn:E; [| reflexivity].
        apply key_eqb_eq in E. congruence.
      * exact IH.
Qed.

Lemma find_app_last {A} (p : A -> bool) (xs : list A) (x : A) :
  find p (xs ++ [x]) =
    match find p xs with
    | Some y => Some y
    | None => if p x then Some x else None
    end.
Proof.
  induction xs as [| y xs IH]; [reflexivity |].
  cbn [app find]. destruct (p y); [reflexivity | exact IH].
Qed.

Lemma existsb_find {A} (p : A -> bool) (xs : list A) :
  existsb p xs = match find p xs with Some _ => true | None => false end.
Proof.
  induction xs as [| y xs IH]; [reflexivity |].
  cbn [existsb find]. destruct (p y); [reflexivity | exact IH].
Qed.

(** Looking a name up in two aligned runs of bindings, one after the
    other: the first run is searched first. *)
Lemma dict_find_two_runs {V} (c : string) (ks' : list string) (vs' : list V) :
  forall (ks : list string) (vs : list V),
    length vs = length ks ->
    dict_find c (combine (ks ++ ks') (vs ++ vs')) =
      match dict_find c (combine ks vs) with
      | Some v => Some v
      | None => dict_find c (combine ks' vs')
      end.
Proof.
  induction ks as [| k ks IH]; intros [| v vs] Hlen; try discriminate;
    [reflexivity |].
  cbn [app combine dict_find]. destruct (String.eqb c k); [reflexivity |].
  apply IH. now injection Hlen.
Qed.

Lemma dict_find_combine_none {V} (c : string) (ks : list string) (vs : list V) :
  ~ In c ks -> dict_find c (combine ks vs) = None.
Proof.
  revert vs. induction ks as [| k ks IH]; intros vs H; [reflexivity |].
  destruct vs as [| v vs]; [reflexivity |]. cbn [combine dict_find].
  destruct (String.eqb c k) eqn:E.
  - apply String.eqb_eq in E. subst k. exfalso. apply H. now left.
  - apply IH. intros Hin. apply H. now right.
Qed.

Lemma find_origem (t : table) :
  find (fun col => String.eqb "origem" (cname col)) (table_columns t) =
    Some (mkColumn "origem" "TEXT" true NoDefault).
Proof. reflexivity. Qed.

Lemma find_identificador (t : table) :
  find (fun col => String.eqb "identificador_unidade" (cname col))
       (table_columns t) =
    Some (mkColumn "identificador_unidade" "TEXT" true NoDefault).
Proof. reflexivity. Qed.

Lemma find_created_at (t : table) :
  find (fun col => String.eqb "created_at" (cname col)) (table_columns t) =
    Some (mkColumn "created_at" "DATETIME" false DefaultCurrentTimestamp).
Proof. reflexivity. Qed.

Lemma find_updated_at (t : table) :
  find (fun col => String.eqb "updated_at" (cname col)) (table_columns t) =
    Some (mkColumn "updated_at" "DATETIME" false DefaultCurrentTimestamp).
Proof. reflexivity. Qed.

Section Rows.

Variable sqlite : engine.

Variable stmt : upsert_stmt.

Lemma bindings_of_inserted (now : string) (vals : list value) (c : string) :
  length vals = length (ins_columns stmt) ->
  c <> "created_at" -> c <> "updated_at" ->
  dict_find c (bindings stmt now vals) =
    dict_find c (combine (ins_columns stmt) vals).
Proof.
  intros Hlen Hc Hu. unfold bindings.
  rewrite dict_find_two_runs by exact Hlen.
  destruct (dict_find c (combine (ins_columns stmt) vals)); [reflexivity |].
  cbn [combine dict_find].
  apply String.eqb_neq in Hc. apply String.eqb_neq in Hu.
  now rewrite Hc, Hu.
Qed.

Lemma bindings_of_created_at (now : string) (vals : list value) :
  length vals = length (ins_columns stmt) -> stmt_ok stmt ->
  dict_find "created_at" (bindings stmt now vals) = Some (VText now).
Proof.
  intros Hlen [Hc _]. unfold bindings.
  rewrite dict_find_two_runs by exact Hlen.
  now rewrite (dict_find_combine_none _ _ _ Hc).
Qed.

Lemma bindings_of_updated_at (now : string) (vals : list value) :
  length vals = length (ins_columns stmt) -> stmt_ok stmt ->
  dict_find "updated_at" (bindings stmt now vals) = Some (VText now).
Proof.
  intros Hlen [_ [Hu _]]. unfold bindings.
  rewrite dict_find_two_runs by exact Hlen.
  now rewrite (dict_find_combine_none _ _ _ Hu).
Qed.

Lemma excluded_key (now : string) (vals : list value) (t : table) :
  length vals = length (ins_columns stmt) ->
  row_key (excluded_row sqlite stmt now vals t) =
    bound_key sqlite stmt vals.
Proof.
  intros Hlen. unfold row_key, excluded_row, bound_key, bound_value.
  rewrite !row_get_built, find_origem, find_identificador.
  cbn [cname ctype].
  rewrite !bindings_of_inserted by (assumption || discriminate).
  unfold default_value. cbn [cdefault]. reflexivity.
Qed.

Lemma excluded_created_at (now : string) (vals : list value) (t : table) :
  length vals = length (ins_columns stmt) -> stmt_ok stmt ->
  row_get "created_at" (excluded_row sqlite stmt now vals t) =
    stamp sqlite now.
Proof.
  intros Hlen Hok. unfold excluded_row.
  rewrite row_get_built, find_created_at. cbn [cname ctype].
  now rewrite bindings_of_created_at.
Qed.

Lemma excluded_updated_at (now : string) (vals : list value) (t : table) :
  length vals = length (ins_columns stmt) -> stmt_ok stmt ->
  row_get "updated_at" (excluded_row sqlite stmt now vals t) =
    stamp sqlite now.
Proof.
  intros Hlen Hok. unfold excluded_row.
  rewrite row_get_built, find_updated_at. cbn [cname ctype].
  now rewrite bindings_of_updated_at.
Qed.

Lemma updated_cell_named (now : string) (excl old : row)
    (col col' : column) :
  cname col = cname col' ->
  updated_cell sqlite stmt now excl old col = None ->
  updated_cell sqlite stmt now excl old col' = None.
Proof.
  unfold updated_cell. intros <-.
  destruct (String.eqb (cname col) "updated_at"); [discriminate |].
  now destruct (str_in (cname col) (upd_columns stmt)).
Qed.

Lemma row_get_updated (now : string) (excl : row) (t : table) (old : row)
    (c : string) :
  row_get c (updated_row sqlite stmt now excl t old) =
    match find (fun col => String.eqb c (cname col)) (table_columns t) with
    | Some col =>
        match updated_cell sqlite stmt now excl old col with
        | Some v => v
        | None => VNull
        end
    | None => VNull
    end.
Proof.
  unfold updated_row. apply row_get_cells. apply updated_cell_named.
Qed.

Lemma updated_row_updated_at (now : string) (excl : row) (t : table)
    (old : row) :
  row_get "updated_at" (updated_row sqlite stmt now excl t old) =
    stamp sqlite now.
Proof. now rewrite row_get_updated, find_updated_at. Qed.

(** A column that is in the table, is not [updated_at] and is not in the
    [SET] list keeps its cell. *)
Lemma updated_row_other (now : string) (excl : row) (t : table) (old : row)
    (c : string) :
  In c (column_names t) -> c <> "updated_at" ->
  row_get c (updated_row sqlite stmt now excl t old) =
    if str_in c (upd_columns stmt) then row_get c excl else row_get c old.
Proof.
  intros Hin Hc. rewrite row_get_updated.
  destruct (find_named c (table_columns t) Hin) as [col [-> Hname]].
  unfold updated_cell. rewrite Hname. apply String.eqb_neq in Hc.
  rewrite Hc. destruct (str_in c (upd_columns stmt)); [reflexivity |].
  reflexivity.
Qed.

Lemma updated_row_key (now : string) (excl : row) (t : table) (old : row) :
  row_key old = row_key excl ->
  row_key (updated_row sqlite stmt now excl t old) = row_key excl.
Proof.
  intros H. unfold row_key in *. injection H as Ho Hi.
  rewrite !row_get_updated, find_origem, find_identificador.
  unfold updated_cell. cbn [cname String.eqb Ascii.eqb Bool.eqb].
  unfold row_get in Ho, Hi.
  destruct (str_in "origem" (upd_columns stmt)),
    (str_in "identificador_unidade" (upd_columns stmt));
    rewrite ?Ho, ?Hi; reflexivity.
Qed.

(** What one execution does to the lookups: the columns stay, the row of
    the key of [excluded] is the updated old row or the new row, the rows
    of the other keys are found as before. *)
Lemma exec_upsert_lookup (now : string) (vals : list value) (t t' : table) :
  exec_upsert sqlite stmt now vals t = Returned t' ->
  let excl := excluded_row sqlite stmt now vals t in
  extra_columns t' = extra_columns t /\
  forall k,
    lookup_row k t' =
      if key_eqb (row_key excl) k
      then Some match lookup_row (row_key excl) t with
                | Some old => updated_row sqlite stmt now excl t old
                | None => excl
                end
      else lookup_row k t.
Proof.
  intros H excl. unfold exec_upsert in H. fold excl in H.
  destruct (find _ (table_columns t)); [discriminate |].
  rewrite existsb_find in H. unfold lookup_row.
  destruct (find (fun r => key_eqb (row_key r) (row_key excl)) (trows t))
    as [old |] eqn:Hold; injection H as <-; cbn [extra_columns trows];
    (split; [reflexivity |]); intros k.
  - rewrite lookup_replace_first, Hold; [reflexivity |].
    intros r Hr. now apply updated_row_key.
  - rewrite find_app_last.
    destruct (key_eqb (row_key excl) k) eqn:Ek.
    + apply key_eqb_eq in Ek. subst k. now rewrite Hold.
    + now destruct (find (fun r => key_eqb (row_key r) k) (trows t)).
Qed.

End Rows.

(** ** Rows: the whole [executemany] *)

Lemma created_at_listed (t : table) : In "created_at" (column_names t).
Proof. unfold column_names, table_columns. simpl. auto. Qed.

Section Runs.

Variable sqlite : engine.

Variable stmt : upsert_stmt.

Variable clock : nat -> string.

Variable io_fault : nat -> bool.

(** What [run_rows] did when it returned: the first row was bound and
    executed, the rest ran on the table it left. *)
Lemma run_rows_cons (i : nat) (vals : list value)
    (rest : list (list value)) (t t' : table) :
  run_rows sqlite stmt clock io_fault i (vals :: rest) t = (Returned tt, t') ->
  io_fault i = false /\
  length vals = length (ins_columns stmt) /\
  exists t1,
    exec_upsert sqlite stmt (clock i) vals t = Returned t1 /\
    run_rows sqlite stmt clock io_fault (S i) rest t1 = (Returned tt, t').
Proof.
  cbn [run_rows].
  destruct (length vals =? length (ins_columns stmt))%nat eqn:Hlen;
    [| discriminate].
  apply Nat.eqb_eq in Hlen. cbn [negb].
  destruct (forallb int64 vals); [| discriminate]. cbn [negb].
  destruct (io_fault i); [discriminate |].
  destruct (exec_upsert sqlite stmt (clock i) vals t) as [t1 | e];
    [| discriminate].
  intros H. repeat split; try assumption. now exists t1.
Qed.

(** Every integer bound by a run that returned was on 64 bits. *)
Lemma run_rows_int64 (rows : list (list value)) :
  forall i t t',
    run_rows sqlite stmt clock io_fault i rows t = (Returned tt, t') ->
    forall vals, In vals rows -> forallb int64 vals = true.
Proof.
  induction rows as [| vals0 rest IH]; intros i t t' H vals Hin;
    [destruct Hin |].
  cbn [run_rows] in H.
  destruct (negb (length vals0 =? length (ins_columns stmt))%nat);
    [discriminate |].
  destruct (forallb int64 vals0) eqn:E; [| discriminate]. cbn [negb] in H.
  destruct (io_fault i); [discriminate |].
  destruct (exec_upsert sqlite stmt (clock i) vals0 t) as [t1 | e];
    [| discriminate].
  destruct Hin as [<- | Hin]; [exact E | exact (IH _ _ _ H vals Hin)].
Qed.

Lemma run_rows_columns (rows : list (list value)) :
  forall i t t',
    run_rows sqlite stmt clock io_fault i rows t = (Returned tt, t') ->
    extra_columns t' = extra_columns t.
Proof.
  induction rows as [| vals rest IH]; intros i t t' H.
  - now injection H as <-.
  - apply run_rows_cons in H. destruct H as [_ [_ [t1 [H1 H2]]]].
    apply exec_upsert_lookup in H1. destruct H1 as [Hc _].
    rewrite (IH _ _ _ H2). exact Hc.
Qed.

Lemma same_columns_names (t t' : table) :
  extra_columns t' = extra_columns t -> column_names t' = column_names t.
Proof. unfold column_names, table_columns. now intros ->. Qed.


Lemma run_rows_no_fault (rows : list (list value)) :
  forall i t t',
    run_rows sqlite stmt clock io_fault i rows t = (Returned tt, t') ->
    forall j, j < length rows -> io_fault (i + j) = false.
Proof.
  induction rows as [| vals rest IH]; intros i t t' H j Hj.
  - simpl in Hj. lia.
  - apply run_rows_cons in H. destruct H as [Hio [_ [t1 [_ H2]]]].
    destruct j as [| j].
    + now rewrite Nat.add_0_r.
    + replace (i + S j) with (S i + j) by lia.
      apply (IH _ _ _ H2). simpl in Hj. lia.
Qed.

Hypothesis Hok : stmt_ok stmt.

Lemma created_at_not_updated : str_in "created_at" (upd_columns stmt) = false.
Proof. apply str_in_false. now destruct Hok as [_ [_ H]]. Qed.

(** The audit cells after a run that returned.  [updated_at] holds the
    time of the last execution that filed the key; a key no row of the
    run files is found as before.  [created_at] of a key that was stored
    keeps its value; for a new key it holds the time of the first
    execution that filed the key. *)
Lemma run_rows_stamps (k : key) (rows : list (list value)) :
  forall i t t',
    run_rows sqlite stmt clock io_fault i rows t = (Returned tt, t') ->
    match last_index (fun vals => key_eqb (bound_key sqlite stmt vals) k)
                     i rows with
    | Some j => tcell "updated_at" k t' = Some (stamp sqlite (clock j))
    | None => lookup_row k t' = lookup_row k t
    end /\
    match lookup_row k t with
    | Some r => tcell "created_at" k t' = Some (row_get "created_at" r)
    | None =>
        match first_index
                (fun vals => key_eqb (bound_key sqlite stmt vals) k)
                i rows with
        | Some j => tcell "created_at" k t' = Some (stamp sqlite (clock j))
        | None => lookup_row k t' = None
        end
    end.
Proof.
  induction rows as [| vals rest IH]; intros i t t' H.
  - injection H as <-. cbn [last_index first_index]. unfold tcell.
    split; [reflexivity |]. now destruct (lookup_row k t).
  - apply run_rows_cons in H. destruct H as [_ [Hlen [t1 [H1 H2]]]].
    apply exec_upsert_lookup in H1. destruct H1 as [_ Hlook].
    rewrite excluded_key in Hlook by exact Hlen.
    destruct (IH _ _ _ H2) as [IHu IHc]. clear IH.
    cbn [last_index first_index].
    pose proof (Hlook k) as Hk.
    destruct (key_eqb (bound_key sqlite stmt vals) k) eqn:Ek.
    + apply key_eqb_eq in Ek. rewrite Ek in Hk. split.
      * destruct (last_index _ (S i) rest) as [j |]; [exact IHu |].
        unfold tcell. rewrite IHu, Hk. cbn [option_map]. f_equal.
        destruct (lookup_row k t).
        -- apply updated_row_updated_at.
        -- now apply excluded_updated_at.
      * rewrite Hk in IHc. destruct (lookup_row k t) as [r |].
        -- rewrite IHc. f_equal.
           rewrite updated_row_other;
             [| apply created_at_listed | discriminate].
           now rewrite created_at_not_updated.
        -- rewrite IHc. f_equal. now apply excluded_created_at.
    + rewrite Hk in IHu, IHc. split.
      * destruct (last_index _ (S i) rest) as [j |]; exact IHu.
      * exact IHc.
Qed.

End Runs.

(** ** [upsert_rows], step by step *)

Section Upsert.

Variable sqlite : engine.

Lemma upsert_rows_eq (df : DataFrame) (pk : option (list string))
    (clock : nat -> string) (io_fault : nat -> bool) (w : world) :
  upsert_rows sqlite df pk clock io_fault w =
    if df_empty df
    then (Returned tt,
          {| db := db w; logs := logs w ++ [WarningEmptyFrame];
             connections := connections w |})
    else
      match missing_pk df (pk_or_default pk) with
      | c :: cs => (Raised (ValueError (c :: cs)), w)
      | [] =>
          match ensure_columns_exist sqlite (columns df) w with
          | (Raised e, w1) => (Raised e, w1)
          | (Returned _, w1) =>
              match sql_executemany sqlite
                      (statement_for df (pk_or_default pk)) clock io_fault
                      (df_select (inserted_columns df) df) (db w1) with
              | (Returned _, d) =>
                  (Returned tt,
                   {| db := d;
                      logs := logs w1 ++
                              [InfoRowsAffected
                                 (length (df_select (inserted_columns df) df))];
                      connections := S (connections w1) |})
              | (Raised e, _) =>
                  (Raised e,
                   {| db := db w1; logs := logs w1 ++ [ErrorTransaction e];
                      connections := S (connections w1) |})
              end
          end
      end.
Proof.
  unfold upsert_rows. destruct (df_empty df); [reflexivity |].
  fold (pk_or_default pk). fold (missing_pk df (pk_or_default pk)).
  destruct (missing_pk df (pk_or_default pk)); [| reflexivity].
  unfold bind at 1.
  destruct (ensure_columns_exist sqlite (columns df) w) as [[[] | e] w1];
    [| reflexivity].
  fold (inserted_columns df).
  change (mkStmt (inserted_columns df)
            (filter (fun col => negb (str_in col (pk_or_default pk)))
                    (inserted_columns df)))
    with (statement_for df (pk_or_default pk)).
  unfold get_connection, bind, execute, log_emit. cbn [db logs connections].
  destruct (sql_executemany _ _ _ _ _ (db w1)) as [[[] | e] d]; reflexivity.
Qed.

Lemma statement_for_ok (df : DataFrame) (pk : list string) :
  stmt_ok (statement_for df pk).
Proof.
  unfold stmt_ok, statement_for, inserted_columns. cbn [ins_columns upd_columns].
  repeat split; intros H; repeat (apply filter_In in H; destruct H as [H ?]);
    discriminate.
Qed.

(** A statement that compiled: its labels are bare names, its
    placeholders are not too many, the table is there and has every
    column named. *)
Lemma prepare_returned (stmt : upsert_stmt) (d : database) (t : table) :
  prepare sqlite stmt d = Returned t ->
  d = Some t /\
  forallb (bare_name sqlite) (ins_columns stmt) = true /\
  length (ins_columns stmt) <= max_variables sqlite /\
  forall c, In c (ins_columns stmt) -> In c (column_names t).
Proof.
  unfold prepare. destruct (ins_columns stmt) as [| c0 cs] eqn:E;
    [discriminate |].
  rewrite <- E.
  destruct (forallb (bare_name sqlite) (ins_columns stmt)); [| discriminate].
  cbn [negb].
  destruct (max_variables sqlite <? length (ins_columns stmt))%nat eqn:Hmax;
    [discriminate |].
  apply Nat.ltb_ge in Hmax.
  destruct d as [t0 |]; [| discriminate].
  destruct (find _ (ins_columns stmt)) eqn:Hfind; [discriminate |].
  intros H. injection H as <-. repeat split; try assumption.
  intros c Hc. pose proof (find_none _ _ Hfind c Hc) as Hn.
  apply negb_false_iff in Hn. now apply str_in_In.
Qed.

(** A run of [executemany] that returned: the statement compiled and
    every row ran. *)
Lemma sql_executemany_returned (stmt : upsert_stmt) (clock : nat -> string)
    (io_fault : nat -> bool) (rows : list (list value)) (d d' : database) :
  sql_executemany sqlite stmt clock io_fault rows d = (Returned tt, d') ->
  exists t t',
    d = Some t /\ d' = Some t' /\
    prepare sqlite stmt d = Returned t /\
    run_rows sqlite stmt clock io_fault 0 rows t = (Returned tt, t').
Proof.
  unfold sql_executemany.
  destruct (prepare sqlite stmt d) as [t | e] eqn:Hp; [| discriminate].
  destruct (prepare_returned _ _ _ Hp) as [Hd _].
  destruct (run_rows sqlite stmt clock io_fault 0 rows t) as [r t'] eqn:Hrun.
  intros H. injection H as -> <-. now exists t, t'.
Qed.

End Upsert.

(** ** From the frame to the bound values *)

Lemma take_label_cons (c : string) (cs : list string) (r : list value)
    (l : string) :
  take_label (c :: cs) r l =
    (if String.eqb c l then [hd VNull r] else []) ++ take_label cs (tl r) l.
Proof.
  unfold take_label. cbn [cells filter fst].
  now destruct (String.eqb c l).
Qed.

(** How many cells a label selects depends on the labels only. *)
Lemma take_label_length (cols : list string) (l : string) :
  forall r r', length (take_label cols r l) = length (take_label cols r' l).
Proof.
  induction cols as [| c cs IH]; intros r r'; [reflexivity |].
  rewrite !take_label_cons, !length_app, (IH (tl r) (tl r')).
  now destruct (String.eqb c l).
Qed.

Lemma take_label_nonempty (cols : list string) (l : string) :
  In l cols -> forall r, 1 <= length (take_label cols r l).
Proof.
  induction cols as [| c cs IH]; [intros [] |]. intros Hin r.
  rewrite take_label_cons, length_app.
  destruct Hin as [-> | Hin].
  - rewrite String.eqb_refl. simpl. lia.
  - specialize (IH Hin (tl r)). lia.
Qed.

Lemma flat_map_at_least {A B} (f : A -> list B) (ls : list A) :
  (forall l, In l ls -> 1 <= length (f l)) ->
  length ls <= length (flat_map f ls).
Proof.
  induction ls as [| l ls IH]; intros H; [simpl; lia |].
  cbn [flat_map]. rewrite length_app. cbn [length].
  assert (1 <= length (f l)) by (apply H; now left).
  assert (length ls <= length (flat_map f ls))
    by (apply IH; intros; apply H; now right).
  lia.
Qed.

(** As many cells as labels, no label without a cell: one cell each. *)
Lemma flat_map_singletons {A B} (d : B) (f : A -> list B) (ls : list A) :
  (forall l, In l ls -> 1 <= length (f l)) ->
  length (flat_map f ls) = length ls ->
  flat_map f ls = map (fun l => hd d (f l)) ls.
Proof.
  induction ls as [| l ls IH]; intros H Hlen; [reflexivity |].
  cbn [flat_map map] in *. rewrite length_app in Hlen. cbn [length] in Hlen.
  assert (H1 : 1 <= length (f l)) by (apply H; now left).
  assert (H2 : length ls <= length (flat_map f ls))
    by (apply flat_map_at_least; intros; apply H; now right).
  rewrite IH; [| intros; apply H; now right | lia].
  destruct (f l) as [| x [| y xs]]; simpl in *; try lia. reflexivity.
Qed.

Lemma dict_find_combine_map {V} (g : string -> V) (ls : list string)
    (c : string) :
  In c ls -> dict_find c (combine ls (map g ls)) = Some (g c).
Proof.
  induction ls as [| l ls IH]; [intros [] |]. intros Hin.
  cbn [map combine dict_find]. destruct (String.eqb c l) eqn:E.
  - apply String.eqb_eq in E. now subst.
  - apply IH. destruct Hin as [-> | Hin]; [| exact Hin].
    now rewrite String.eqb_refl in E.
Qed.

Lemma inserted_columns_in (df : DataFrame) (c : string) :
  In c (inserted_columns df) -> In c (columns df).
Proof. unfold inserted_columns. intros H. now apply filter_In in H. Qed.

Section Frames.

Variable sqlite : engine.

Variable df : DataFrame.

Variable pk : list string.


Lemma selected_length (r r' : list value) :
  length (selected df r) = length (selected df r').
Proof.
  unfold selected. induction (inserted_columns df) as [| l ls IH];
    [reflexivity |].
  cbn [flat_map]. rewrite !length_app, IH.
  now rewrite (take_label_length (columns df) l r r').
Qed.

Lemma selected_aligned (r : list value) :
  length (selected df r) = length (inserted_columns df) ->
  selected df r = map (df_cell df r) (inserted_columns df).
Proof.
  intros Hlen. unfold selected, df_cell.
  apply flat_map_singletons; [| exact Hlen].
  intros l Hl. apply take_label_nonempty. now apply inserted_columns_in.
Qed.

Lemma bound_value_frame (ty c : string) (r : list value) :
  length (selected df r) = length (inserted_columns df) ->
  In c (inserted_columns df) ->
  bound_value sqlite ty c (statement_for df pk) (selected df r) =
    affinity sqlite ty (df_cell df r c).
Proof.
  intros Hlen Hin. unfold bound_value, statement_for. cbn [ins_columns].
  rewrite (selected_aligned r Hlen).
  now rewrite (dict_find_combine_map (df_cell df r)).
Qed.

Lemma bound_key_frame (r : list value) :
  length (selected df r) = length (inserted_columns df) ->
  In "origem" (inserted_columns df) ->
  In "identificador_unidade" (inserted_columns df) ->
  bound_key sqlite (statement_for df pk) (selected df r) =
    df_row_key sqlite df r.
Proof.
  intros Hlen Ho Hi. unfold bound_key, df_row_key.
  now rewrite !bound_value_frame.
Qed.

End Frames.

(** ** Calls that returned *)

Lemma grows_table (w w1 : world) (t : table) :
  grows w w1 -> db w = Some t ->
  exists t1,
    db w1 = Some t1 /\ trows t1 = trows t /\
    forall c, In c (column_names t) -> In c (column_names t1).
Proof.
  intros [Hc Hr] Hdb. unfold columns_grow in Hc. rewrite Hdb in Hc, Hr.
  destruct Hc as [t1 [added [H1 Hex]]]. rewrite H1 in Hr.
  exists t1. repeat split; try assumption.
  intros c. unfold column_names, table_columns. rewrite Hex, !map_app.
  intros Hin. apply in_app_or in Hin. apply in_or_app.
  destruct Hin as [Hin | Hin]; [now left |].
  right. apply in_or_app. now left.
Qed.

Lemma last_index_ext (p q : list value -> bool) (rows : list (list value)) :
  (forall r, p r = q r) ->
  forall i, last_index p i rows = last_index q i rows.
Proof.
  intros H. induction rows as [| r rows IH]; intros i; [reflexivity |].
  cbn [last_index]. now rewrite IH, H.
Qed.

Lemma last_index_mapped (f : list value -> list value)
    (p : list value -> bool) (rows : list (list value)) :
  forall i, last_index p i (map f rows) =
            last_index (fun r => p (f r)) i rows.
Proof.
  induction rows as [| r rows IH]; intros i; [reflexivity |].
  cbn [map last_index]. now rewrite IH.
Qed.

Lemma first_index_ext (p q : list value -> bool) (rows : list (list value)) :
  (forall r, p r = q r) ->
  forall i, first_index p i rows = first_index q i rows.
Proof.
  intros H. induction rows as [| r rows IH]; intros i; [reflexivity |].
  cbn [first_index]. now rewrite IH, H.
Qed.

Lemma first_index_mapped (f : list value -> list value)
    (p : list value -> bool) (rows : list (list value)) :
  forall i, first_index p i (map f rows) =
            first_index (fun r => p (f r)) i rows.
Proof.
  induction rows as [| r rows IH]; intros i; [reflexivity |].
  cbn [map first_index]. now rewrite IH.
Qed.


Lemma last_index_found (p : list value -> bool) (rows : list (list value))
    (r : list value) :
  In r rows -> p r = true ->
  forall i, exists j, last_index p i rows = Some j.
Proof.
  induction rows as [| r0 rows IH]; [intros [] |].
  intros Hin Hp i. cbn [last_index].
  destruct (last_index p (S i) rows) as [j |] eqn:E; [eauto |].
  destruct Hin as [-> | Hin].
  - rewrite Hp. eauto.
  - destruct (IH Hin Hp (S i)) as [j Hj]. congruence.
Qed.

Section Returned.

Variable sqlite : engine.

(** An execution that returned passed the NOT NULL check: both key
    columns were bound. *)
Lemma exec_upsert_key_bound (stmt : upsert_stmt) (now : string)
    (vals : list value) (t t' : table) :
  exec_upsert sqlite stmt now vals t = Returned t' ->
  length vals = length (ins_columns stmt) ->
  In "origem" (ins_columns stmt) /\
  In "identificador_unidade" (ins_columns stmt).
Proof.
  intros H Hlen. unfold exec_upsert in H.
  destruct (find _ (table_columns t)) as [c |] eqn:Hfind; [discriminate |].
  clear H.
  pose proof (find_none _ _ Hfind) as Hnone.
  pose proof (excluded_key sqlite stmt now vals t Hlen) as Hkey.
  unfold row_key, bound_key, bound_value in Hkey. injection Hkey as Ho Hi.
  split.
  - specialize (Hnone (mkColumn "origem" "TEXT" true NoDefault)).
    cbn [cnotnull cname andb] in Hnone. rewrite Ho in Hnone.
    destruct (in_dec string_dec "origem" (ins_columns stmt)) as [Hin | Hout];
      [exact Hin |].
    rewrite (dict_find_combine_none _ _ vals Hout) in Hnone.
    assert (Hb : In (mkColumn "origem" "TEXT" true NoDefault)
                    (table_columns t)) by (simpl; auto).
    specialize (Hnone Hb). discriminate.
  - specialize (Hnone (mkColumn "identificador_unidade" "TEXT" true NoDefault)).
    cbn [cnotnull cname andb] in Hnone. rewrite Hi in Hnone.
    destruct (in_dec string_dec "identificador_unidade" (ins_columns stmt))
      as [Hin | Hout]; [exact Hin |].
    rewrite (dict_find_combine_none _ _ vals Hout) in Hnone.
    assert (Hb : In (mkColumn "identificador_unidade" "TEXT" true NoDefault)
                    (table_columns t)) by (simpl; auto).
    specialize (Hnone Hb). discriminate.
Qed.

Variable df : DataFrame.

Variable pk : option (list string).

Variable clock : nat -> string.

Variable io_fault : nat -> bool.

Variable w : world.

Hypothesis Hfull : df_empty df = false.

Hypothesis Hreturned :
  outcome (upsert_rows sqlite df pk clock io_fault) w = Returned tt.

(** A call on a frame with rows that returned: the columns were ensured,
    and every row ran on the table that step left. *)
Lemma upsert_rows_returned :
  exists w1 t1 t',
    ensure_columns_exist sqlite (columns df) w = (Returned tt, w1) /\
    db w1 = Some t1 /\
    run_rows sqlite (statement_for df (pk_or_default pk)) clock io_fault 0
             (map (selected df) (values df)) t1 = (Returned tt, t') /\
    db (after (upsert_rows sqlite df pk clock io_fault) w) = Some t'.
Proof.
  unfold outcome in Hreturned. unfold after.
  rewrite upsert_rows_eq in *. rewrite Hfull in *.
  destruct (missing_pk df (pk_or_default pk)); [| discriminate].
  destruct (ensure_columns_exist sqlite (columns df) w) as [[[] | e] w1] eqn:He;
    [| discriminate].
  destruct (sql_executemany _ _ _ _ _ (db w1)) as [[[] | e] d] eqn:Hx;
    [| discriminate].
  apply sql_executemany_returned in Hx.
  destruct Hx as [t1 [t' [H1 [-> [_ Hrun]]]]].
  exists w1, t1, t'. auto.
Qed.

(** On such a call the statement compiled: every label it inserts is a
    bare name and a column of the table the rows ran on. *)
Lemma upsert_rows_compiled :
  exists w1 t1,
    ensure_columns_exist sqlite (columns df) w = (Returned tt, w1) /\
    db w1 = Some t1 /\
    forallb (bare_name sqlite) (inserted_columns df) = true /\
    length (inserted_columns df) <= max_variables sqlite /\
    forall c, In c (inserted_columns df) -> In c (column_names t1).
Proof.
  unfold outcome in Hreturned.
  rewrite upsert_rows_eq in *. rewrite Hfull in *.
  destruct (missing_pk df (pk_or_default pk)); [| discriminate].
  destruct (ensure_columns_exist sqlite (columns df) w) as [[[] | e] w1] eqn:He;
    [| discriminate].
  destruct (sql_executemany _ _ _ _ _ (db w1)) as [[[] | e] d] eqn:Hx;
    [| discriminate].
  apply sql_executemany_returned in Hx.
  destruct Hx as [t1 [t' [H1 [_ [Hp _]]]]].
  apply prepare_returned in Hp. destruct Hp as [_ [Hb [Hm Hc]]].
  exists w1, t1. auto.
Qed.

Lemma values_nonempty : values df <> [].
Proof.
  intros H. apply df_empty_no_rows in H. congruence.
Qed.

(** On such a call every row of the frame is filed under the key read
    from its two key cells. *)
Lemma returned_keys (r : list value) :
  bound_key sqlite (statement_for df (pk_or_default pk)) (selected df r) =
    df_row_key sqlite df r.
Proof.
  destruct upsert_rows_returned as [w1 [t1 [t' [_ [_ [Hrun _]]]]]].
  pose proof values_nonempty as Hne.
  destruct (values df) as [| r0 rest]; [congruence |].
  cbn [map] in Hrun. apply run_rows_cons in Hrun.
  destruct Hrun as [_ [Hlen [t2 [Hexec _]]]].
  destruct (exec_upsert_key_bound _ _ _ _ _ Hexec Hlen) as [Ho Hi].
  cbn [statement_for ins_columns] in Hlen, Ho, Hi.
  apply bound_key_frame; try assumption.
  now rewrite (selected_length df r r0).
Qed.

(** On such a call every label of the frame that is not reserved is a
    bare name. *)
Lemma returned_labels_bare (c : string) :
  In c (columns df) -> str_in c reserved_columns = false ->
  bare_name sqlite c = true.
Proof.
  destruct upsert_rows_compiled as [_ [_ [_ [_ [Hb _]]]]].
  intros Hc Hr. rewrite forallb_forall in Hb. apply Hb.
  unfold inserted_columns. apply filter_In. split; [exact Hc |].
  apply negb_true_iff. apply str_in_false.
  apply str_in_false in Hr. intros Hin. apply Hr.
  simpl in Hin |- *. tauto.
Qed.

End Returned.

(** ** The merge *)

Section Merge.

Variable sqlite : engine.




End Merge.



(** ** The audit columns *)

Section Audit.

Variable sqlite : engine.




(** The audit cells after a call on a frame with rows that returned, in
    terms of the rows of the frame. *)
Lemma upsert_rows_stamps (df : DataFrame) (pk : option (list string))
    (clock : nat -> string) (io_fault : nat -> bool) (w : world) (k : key) :
  df_empty df = false ->
  outcome (upsert_rows sqlite df pk clock io_fault) w = Returned tt ->
  let touches := fun r => key_eqb (df_row_key sqlite df r) k in
  let w' := after (upsert_rows sqlite df pk clock io_fault) w in
  match last_index touches 0 (values df) with
  | Some j =>
      cell_of "updated_at" k (db w') = Some (stamp sqlite (clock j))
  | None =>
      forall c, cell_of c k (db w') = cell_of c k (db w)
  end /\
  match cell_of "created_at" k (db w) with
  | Some v => cell_of "created_at" k (db w') = Some v
  | None =>
      match first_index touches 0 (values df) with
      | Some i =>
          cell_of "created_at" k (db w') = Some (stamp sqlite (clock i))
      | None => cell_of "created_at" k (db w') = None
      end
  end.
Proof.
  intros Hfull Hret touches w'.
  destruct (upsert_rows_returned sqlite df pk clock io_fault w Hfull Hret)
    as [w1 [t1 [t' [He [H1 [Hrun H']]]]]].
  pose proof (ensure_columns_exist_grows sqlite (columns df) w) as G.
  unfold after in G. rewrite He in G. cbn [snd] in G.
  destruct (db w) as [t |] eqn:Hdb.
  2:{ destruct G as [G _]. unfold columns_grow in G. rewrite Hdb in G.
      congruence. }
  destruct (grows_table _ _ _ G Hdb) as [t1' [H1' [Hrows _]]].
  rewrite H1 in H1'. injection H1' as <-.
  assert (Hlook : lookup_row k t1 = lookup_row k t)
    by (unfold lookup_row; now rewrite Hrows).
  pose proof (run_rows_stamps sqlite _ clock io_fault
                (statement_for_ok df (pk_or_default pk)) k _ _ _ _ Hrun)
    as [Hu Hc].
  rewrite last_index_mapped in Hu. rewrite first_index_mapped in Hc.
  rewrite (last_index_ext _ touches) in Hu
    by (intros r; unfold touches;
        now rewrite (returned_keys sqlite df pk clock io_fault w Hfull Hret)).
  rewrite (first_index_ext _ touches) in Hc
    by (intros r; unfold touches;
        now rewrite (returned_keys sqlite df pk clock io_fault w Hfull Hret)).
  unfold w'. rewrite H'. unfold cell_of. unfold tcell in Hu, Hc.
  rewrite Hlook in Hu, Hc. split.
  - destruct (last_index touches 0 (values df)); [exact Hu |].
    intros c. now rewrite Hu.
  - destruct (lookup_row k t) as [r |]; cbn [option_map]; [exact Hc |].
    destruct (first_index touches 0 (values df)); [exact Hc |].
    now rewrite Hc.
Qed.


End Audit.


(** ** One transaction for the rows *)

Section Transaction.

Variable sqlite : engine.

Variable df : DataFrame.

Variable pk : option (list string).

Variable clock : nat -> string.

Variable io_fault : nat -> bool.

Variable w : world.

Lemma upsert_rows_raised_rows (e : exn) :
  outcome (upsert_rows sqlite df pk clock io_fault) w = Raised e ->
  rows_of (db (after (upsert_rows sqlite df pk clock io_fault) w)) =
    rows_of (db w).
Proof.
  unfold outcome, after. rewrite upsert_rows_eq.
  destruct (df_empty df); [discriminate |].
  destruct (missing_pk df (pk_or_default pk)); [| reflexivity].
  pose proof (ensure_columns_exist_grows sqlite (columns df) w) as [_ G].
  unfold after in G.
  destruct (ensure_columns_exist sqlite (columns df) w) as [[[] | e1] w1];
    cbn [snd] in G; [| intros _; exact G].
  destruct (sql_executemany _ _ _ _ _ (db w1)) as [[[] | e2] d];
    [discriminate |].
  intros _. exact G.
Qed.

(** What the rollback takes back: when the rows raise, the table they
    left in the open transaction is dropped, and the database is the one
    the connection was opened on. *)
Lemma upsert_rows_rolled_back (w1 : world) (e : exn) (d : database) :
  df_empty df = false -> missing_pk df (pk_or_default pk) = [] ->
  ensure_columns_exist sqlite (columns df) w = (Returned tt, w1) ->
  sql_executemany sqlite (statement_for df (pk_or_default pk)) clock io_fault
                  (df_select (inserted_columns df) df) (db w1) =
    (Raised e, d) ->
  outcome (upsert_rows sqlite df pk clock io_fault) w = Raised e /\
  db (after (upsert_rows sqlite df pk clock io_fault) w) = db w1.
Proof.
  intros Hfull Hpk He Hx. unfold outcome, after.
  rewrite upsert_rows_eq, Hfull, Hpk, He, Hx. auto.
Qed.

Lemma upsert_rows_schema :
  df_empty df = false -> missing_pk df (pk_or_default pk) = [] ->
  schema_of (db (after (upsert_rows sqlite df pk clock io_fault) w)) =
    schema_of (db (after (ensure_columns_exist sqlite (columns df)) w)).
Proof.
  intros Hfull Hpk. unfold after. rewrite upsert_rows_eq, Hfull, Hpk.
  destruct (ensure_columns_exist sqlite (columns df) w) as [[[] | e1] w1];
    [| reflexivity].
  destruct (sql_executemany _ _ _ _ _ (db w1)) as [[[] | e] d] eqn:Hx;
    [| reflexivity].
  apply sql_executemany_returned in Hx. destruct Hx as [t [t' [H1 [-> [_ Hrun]]]]].
  apply run_rows_columns in Hrun. cbn [snd db]. rewrite H1.
  cbn [schema_of option_map]. unfold table_columns. now rewrite Hrun.
Qed.

Lemma upsert_rows_fault_raises (j : nat) :
  df_empty df = false -> j < length (values df) -> io_fault j = true ->
  exists e, outcome (upsert_rows sqlite df pk clock io_fault) w = Raised e.
Proof.
  intros Hfull Hj Hio.
  destruct (outcome (upsert_rows sqlite df pk clock io_fault) w)
    as [[] | e] eqn:Hret; [| now exists e].
  destruct (upsert_rows_returned sqlite df pk clock io_fault w Hfull Hret)
    as [w1 [t1 [t' [_ [_ [Hrun _]]]]]].
  pose proof (run_rows_no_fault sqlite _ clock io_fault _ _ _ _ Hrun j) as H.
  rewrite length_map in H. specialize (H Hj). cbn in H. congruence.
Qed.

(** C2, as the code has it: the rows of a call are written in one
    transaction.  A call that raises leaves the stored rows as they were;
    a call on a frame with rows that returns has run every row, in order,
    on the table left by [ensure_columns_exist], and every row of the
    frame is stored under its key; a disk fault during any row makes the
    call raise.  The columns are added before, each in a transaction of
    its own: the schema after the call is the schema after
    [ensure_columns_exist], whether the rows were written or rolled
    back.  When the rows raise, whatever [executemany] had written in the
    open transaction is dropped by the rollback: the database is the one
    [ensure_columns_exist] left. *)
Theorem upsert_rows_all_or_nothing :
  let r := outcome (upsert_rows sqlite df pk clock io_fault) w in
  let w' := after (upsert_rows sqlite df pk clock io_fault) w in
  (forall e, r = Raised e -> rows_of (db w') = rows_of (db w)) /\
  (df_empty df = false -> r = Returned tt ->
   (exists t1 t',
       db (after (ensure_columns_exist sqlite (columns df)) w) = Some t1 /\
       run_rows sqlite (statement_for df (pk_or_default pk)) clock io_fault
                0 (df_select (inserted_columns df) df) t1 = (Returned tt, t') /\
       db w' = Some t') /\
   (forall row, In row (values df) ->
      exists j, cell_of "updated_at" (df_row_key sqlite df row) (db w') =
                  Some (stamp sqlite (clock j)))) /\
  (df_empty df = false ->
   forall j, j < length (values df) -> io_fault j = true ->
             exists e, r = Raised e) /\
  (df_empty df = false -> missing_pk df (pk_or_default pk) = [] ->
   schema_of (db w') =
     schema_of (db (after (ensure_columns_exist sqlite (columns df)) w))) /\
  (df_empty df = false -> missing_pk df (pk_or_default pk) = [] ->
   forall w1 e d,
     ensure_columns_exist sqlite (columns df) w = (Returned tt, w1) ->
     sql_executemany sqlite (statement_for df (pk_or_default pk)) clock
                     io_fault (df_select (inserted_columns df) df) (db w1) =
       (Raised e, d) ->
     r = Raised e /\ db w' = db w1).
Proof.
  intros r w'. split; [| split; [| split; [| split]]].
  - intros e He. now apply (upsert_rows_raised_rows e).
  - intros Hfull Hret. split.
    + destruct (upsert_rows_returned sqlite df pk clock io_fault w Hfull Hret)
        as [w1 [t1 [t' [He [H1 [Hrun H']]]]]].
      exists t1, t'. unfold after at 1. rewrite He. auto.
    + intros row Hin.
      pose proof (upsert_rows_stamps sqlite df pk clock io_fault w
                    (df_row_key sqlite df row) Hfull Hret) as [Hu _].
      cbv zeta in Hu.
      destruct (last_index_found
                  (fun r0 => key_eqb (df_row_key sqlite df r0)
                                     (df_row_key sqlite df row))
                  (values df) row Hin (key_eqb_refl _) 0) as [j Hj].
      rewrite Hj in Hu. now exists j.
  - intros Hfull j Hj Hio. now apply (upsert_rows_fault_raises j).
  - apply upsert_rows_schema.
  - intros Hfull Hpk w1 e d He Hx.
    exact (upsert_rows_rolled_back w1 e d Hfull Hpk He Hx).
Qed.

End Transaction.

Lemma upsert_rows_all_or_nothing_witness :
  (outcome (upsert_rows no_coercion faulty_frame None example_clock no_fault)
           fresh_world = Raised (NotNullConstraint "origem") /\
   rows_of (db (after (upsert_rows no_coercion faulty_frame None example_clock
                         no_fault) fresh_world)) = rows_of (db fresh_world)) /\
  (outcome (upsert_rows no_coercion first_frame None example_clock no_fault)
           fresh_world = Returned tt /\
   exists j,
     cell_of "updated_at" stored_key
       (db (after (upsert_rows no_coercion first_frame None example_clock
                     no_fault) fresh_world)) =
       Some (VText (example_clock j))) /\
  (exists e,
     outcome (upsert_rows no_coercion first_frame None example_clock
                (fun i => Nat.eqb i 0)) fresh_world = Raised e) /\
  exists w1 d,
    ensure_columns_exist no_coercion (columns faulty_frame) fresh_world =
      (Returned tt, w1) /\
    sql_executemany no_coercion
        (statement_for faulty_frame (pk_or_default None)) example_clock
        no_fault (df_select (inserted_columns faulty_frame) faulty_frame)
        (db w1) =
      (Raised (NotNullConstraint "origem"), d) /\
    map row_key (rows_of d) = [stored_key] /\
    rows_of (db w1) = [] /\
    db (after (upsert_rows no_coercion faulty_frame None example_clock
                 no_fault) fresh_world) = db w1.
Proof.
  assert (H : outcome (upsert_rows no_coercion faulty_frame None example_clock
                         no_fault) fresh_world =
              Raised (NotNullConstraint "origem")) by reflexivity.
  assert (H' : outcome (upsert_rows no_coercion first_frame None example_clock
                          no_fault) fresh_world = Returned tt) by reflexivity.
  split; [split; [exact H |] | split; [split; [exact H' |] | split]];
    [| | | eexists; eexists;
           split; [reflexivity |];
           split; [reflexivity |];
           split; [reflexivity |];
           split; [reflexivity |];
           exact (proj2 (proj2 (proj2 (proj2 (proj2
                    (upsert_rows_all_or_nothing no_coercion faulty_frame
                       None example_clock no_fault fresh_world))))
                    eq_refl eq_refl _ _ _ eq_refl eq_refl))].
  - exact (proj1 (upsert_rows_all_or_nothing no_coercion faulty_frame None
                    example_clock no_fault fresh_world) _ H).
  - exact (proj2 (proj1 (proj2 (upsert_rows_all_or_nothing no_coercion
                                  first_frame None example_clock no_fault
                                  fresh_world)) eq_refl H')
                 [VText "2013"; VText "UPA001"; VInt 30]
                 (or_introl eq_refl)).
  - refine (proj1 (proj2 (proj2 (upsert_rows_all_or_nothing no_coercion
                                   first_frame None example_clock
                                   (fun i => Nat.eqb i 0) fresh_world)))
              _ 0 _ _); [reflexivity | simpl; lia | reflexivity].
Defined.

(** C2 as worded fails for the schema: the call raises on the second row,
    no row is written, and the column added for the batch is there. *)
Lemma upsert_rows_fault_keeps_new_column :
  let w' := after (upsert_rows no_coercion faulty_frame None example_clock
                     no_fault) fresh_world in
  outcome (upsert_rows no_coercion faulty_frame None example_clock no_fault)
          fresh_world = Raised (NotNullConstraint "origem") /\
  rows_of (db w') = [] /\
  schema_of (db fresh_world) = Some base_columns /\
  schema_of (db w') =
    Some (base_columns ++ [mkColumn "renda" "REAL" false NoDefault]) /\
  schema_of (db w') <> schema_of (db fresh_world).
Proof.
  cbv zeta. repeat split; try reflexivity. discriminate.
Qed.

(** ** Audit columns supplied by the caller *)














Section Supplied.

Variable sqlite : engine.





End Supplied.


(** ** Types of columns *)

Lemma find_app_some {A} (p : A -> bool) (xs ys : list A) (x : A) :
  find p xs = Some x -> find p (xs ++ ys) = Some x.
Proof.
  induction xs as [| y xs IH]; [discriminate |].
  cbn [app find]. destruct (p y); [auto | exact IH].
Qed.


Lemma columns_grow_type (c ty : string) (d d' : database) :
  columns_grow d d' -> type_in c d = Some ty -> type_in c d' = Some ty.
Proof.
  unfold columns_grow, type_in. destruct d as [t |]; [| discriminate].
  intros [t' [added [-> Hex]]]. unfold column_type, table_columns.
  rewrite Hex, app_assoc.
  destruct (find _ (base_columns ++ extra_columns t)) as [col |] eqn:E;
    [| discriminate].
  now rewrite (find_app_some _ _ added _ E).
Qed.

Section Types.

Variable sqlite : engine.

Lemma upsert_rows_columns_grow (df : DataFrame) (pk : option (list string))
    (clock : nat -> string) (io_fault : nat -> bool) (w : world) :
  columns_grow (db w) (db (after (upsert_rows sqlite df pk clock io_fault) w)).
Proof.
  unfold after. rewrite upsert_rows_eq.
  destruct (df_empty df); [apply columns_grow_refl |].
  destruct (missing_pk df (pk_or_default pk)); [| apply columns_grow_refl].
  pose proof (ensure_columns_exist_grows sqlite (columns df) w) as [G _].
  unfold after in G.
  destruct (ensure_columns_exist sqlite (columns df) w) as [[[] | e1] w1];
    cbn [snd] in *; [| exact G].
  destruct (sql_executemany _ _ _ _ _ (db w1)) as [[[] | e] d] eqn:Hx;
    cbn [db]; [| exact G].
  apply sql_executemany_returned in Hx. destruct Hx as [t1 [t' [H1 [-> [_ Hrun]]]]].
  apply run_rows_columns in Hrun.
  eapply columns_grow_trans; [exact G |]. rewrite H1. simpl.
  exists t', []. now rewrite app_nil_r.
Qed.

End Types.

Lemma for_each_ensure_grows (sqlite : engine) (existing names : list string) (w : world) :
  grows w (after (for_each names (ensure_body sqlite existing)) w).
Proof.
  apply (for_each_keeps (grows w)); [| apply grows_refl].
  intros x w1 H1. eapply grows_trans; [exact H1 | apply ensure_body_grows].
Qed.

Lemma inferred_type_plain (c : string) : In (inferred_type c) plain_types.
Proof.
  unfold inferred_type, plain_types.
  destruct (_ || _); [simpl; auto |].
  destruct (existsb _ integer_keywords); [simpl; auto |].
  destruct (existsb _ real_keywords); simpl; auto.
Qed.

(** The column [ensure_columns_exist] asks for under a bare name. *)
Lemma read_inferred (sqlite : engine) (c : string) :
  bare_name sqlite c = true ->
  read_column_def sqlite c (inferred_type c) =
    Returned (mkColumn c (inferred_type c) false NoDefault).
Proof.
  intros Hb. apply read_column_def_plain; [exact Hb | apply inferred_type_plain].
Qed.

Lemma ensure_body_returned (sqlite : engine) (existing : list string) (c : string)
    (w w1 : world) :
  (str_in c reserved_columns = false -> bare_name sqlite c = true) ->
  (forall x, str_in x existing = true -> listed x w) ->
  ensure_body sqlite existing c w = (Returned tt, w1) ->
  listed c w1 \/ str_in c reserved_columns = true.
Proof.
  intros Hbare Hex. unfold ensure_body.
  destruct (str_in c existing) eqn:E.
  - intros H. injection H as <-. left. now apply Hex.
  - destruct (str_in c reserved_columns); [auto |].
    rewrite add_column_if_not_exists_eq. unfold listed.
    destruct (str_in c (sql_table_info (db w))) eqn:El.
    + intros H. injection H as <-. now left.
    + destruct (sql_add_column sqlite c (inferred_type c) (db w)) as [d | e] eqn:Ha;
        [| discriminate].
      intros H. injection H as <-. left. cbn [db].
      destruct (sql_add_column_listed sqlite _ _ _ _ Ha) as [col [Hread Hl]].
      rewrite (read_inferred sqlite c (Hbare eq_refl)) in Hread.
      injection Hread as <-. exact Hl.
Qed.

(** A loop that returned left every name listed, unless it is reserved. *)
Lemma for_each_ensure_returned (sqlite : engine) (existing names : list string) :
  (forall c, In c names -> str_in c reserved_columns = false ->
             bare_name sqlite c = true) ->
  forall w w1,
    (forall x, str_in x existing = true -> listed x w) ->
    for_each names (ensure_body sqlite existing) w = (Returned tt, w1) ->
    forall c, In c names -> listed c w1 \/ str_in c reserved_columns = true.
Proof.
  induction names as [| x xs IH]; intros Hbare w w1 Hex H c Hin;
    [destruct Hin |].
  assert (Hbare' : forall c, In c xs -> str_in c reserved_columns = false ->
                             bare_name sqlite c = true)
    by (intros y Hy; apply Hbare; now right).
  specialize (IH Hbare').
  cbn [for_each] in H. unfold bind in H.
  destruct (ensure_body sqlite existing x w) as [[[] | e] wx] eqn:Hx;
    [| discriminate].
  assert (Gx : grows w wx).
  { pose proof (ensure_body_grows sqlite existing x w) as G. unfold after in G.
    now rewrite Hx in G. }
  assert (Hex' : forall y, str_in y existing = true -> listed y wx).
  { intros y Hy. eapply grows_listed; [exact Gx | now apply Hex]. }
  destruct Hin as [<- | Hin]; [| exact (IH _ _ Hex' H c Hin)].
  destruct (ensure_body_returned sqlite _ _ _ _
              (Hbare x (or_introl eq_refl)) Hex Hx) as [Hl | Hr];
    [| now right].
  left. pose proof (for_each_ensure_grows sqlite existing xs wx) as G.
  unfold after in G. rewrite H in G. cbn [snd] in G.
  eapply grows_listed; eassumption.
Qed.

Lemma ensure_columns_exist_returned (sqlite : engine) (names : list string) (w w1 : world) :
  (forall c, In c names -> str_in c reserved_columns = false ->
             bare_name sqlite c = true) ->
  ensure_columns_exist sqlite names w = (Returned tt, w1) ->
  forall c, In c names -> listed c w1 \/ str_in c reserved_columns = true.
Proof.
  intros Hbare. rewrite ensure_columns_exist_eq.
  apply for_each_ensure_returned; [exact Hbare |].
  intros x Hx. exact Hx.
Qed.

(** When every name is listed or reserved the loop adds nothing. *)
Lemma ensure_columns_exist_nothing (sqlite : engine) (names : list string) (w : world) :
  (forall c, In c names -> listed c w \/ str_in c reserved_columns = true) ->
  db (after (ensure_columns_exist sqlite names) w) = db w.
Proof.
  intros H. unfold after. rewrite ensure_columns_exist_eq.
  assert (Hloop : forall w0,
            for_each names (ensure_body sqlite (sql_table_info (db w))) w0 =
              (Returned tt, w0)).
  { induction names as [| x xs IH]; intros w0; [reflexivity |].
    cbn [for_each]. unfold bind.
    assert (Hx : ensure_body sqlite (sql_table_info (db w)) x w0 = (Returned tt, w0)).
    { unfold ensure_body. destruct (H x (or_introl eq_refl)) as [Hl | Hr].
      - unfold listed in Hl. now rewrite Hl.
      - rewrite Hr. now destruct (str_in x (sql_table_info (db w))). }
    rewrite Hx. apply IH. intros c Hc. apply H. now right. }
  now rewrite Hloop.
Qed.

Lemma same_name_refl (c : string) : same_name c c = true.
Proof. unfold same_name. apply String.eqb_refl. Qed.

Lemma count_none (c : string) (cols : list column) :
  existsb (fun col => same_name c (cname col)) cols = false ->
  length (filter (fun col => String.eqb c (cname col)) cols) = 0.
Proof.
  induction cols as [| col cols IH]; [reflexivity |].
  cbn [existsb filter]. intros H. apply orb_false_iff in H.
  destruct H as [Hs Hrest].
  destruct (String.eqb c (cname col)) eqn:E; [| now apply IH].
  apply String.eqb_eq in E. rewrite <- E, same_name_refl in Hs. discriminate.
Qed.

Lemma count_named_zero (c : string) (t : table) :
  ~ In c (column_names t) -> count_named c t = 0.
Proof.
  unfold count_named, column_names. induction (table_columns t) as [| col cols IH];
    [reflexivity |].
  cbn [map filter]. intros H.
  destruct (String.eqb c (cname col)) eqn:E.
  - apply String.eqb_eq in E. exfalso. apply H. left. now symmetry.
  - apply IH. intros Hin. apply H. now right.
Qed.

Lemma typed_once_same_db (c : string) (w w' : world) :
  db w' = db w -> typed_once c w -> typed_once c w'.
Proof. unfold typed_once. now intros ->. Qed.

Lemma typed_once_add (sqlite : engine) (c x : string) (w : world) :
  bare_name sqlite x = true ->
  typed_once c w ->
  typed_once c (after (add_column_if_not_exists sqlite x (inferred_type x)) w).
Proof.
  intros Hb H. unfold after. rewrite add_column_if_not_exists_eq.
  destruct (str_in x (sql_table_info (db w)));
    [now apply (typed_once_same_db c w) |].
  destruct (sql_add_column sqlite x (inferred_type x) (db w)) as [d | e] eqn:Ha;
    [| now apply (typed_once_same_db c w)].
  unfold typed_once in *. cbn [snd db].
  apply sql_add_column_returned in Ha.
  destruct Ha as [t [col [Hdb [Hread [_ [Hdup ->]]]]]].
  rewrite (read_inferred sqlite x Hb) in Hread. injection Hread as <-.
  cbn [cname] in Hdup. rewrite Hdb in H. destruct H as [Hcount Htype].
  unfold count_named, table_columns in *. cbn [extra_columns].
  rewrite app_assoc, filter_app, length_app. split.
  - cbn [filter cname]. destruct (String.eqb c x) eqn:E;
      [| cbn [length]; rewrite Nat.add_0_r; exact Hcount].
    apply String.eqb_eq in E. subst x.
    rewrite (count_none c _ Hdup). cbn [length]. lia.
  - intros col Hin Hname. apply in_app_or in Hin.
    destruct Hin as [Hin | [<- | []]]; [now apply Htype |].
    cbn [cname ctype] in *. now subst.
Qed.

Lemma typed_once_body (sqlite : engine) (c : string) (existing : list string) (x : string)
    (w : world) :
  (str_in x reserved_columns = false -> bare_name sqlite x = true) ->
  typed_once c w -> typed_once c (after (ensure_body sqlite existing x) w).
Proof.
  intros Hb H. unfold ensure_body.
  destruct (str_in x existing); [exact H |].
  destruct (str_in x reserved_columns); [exact H |].
  apply typed_once_add; [now apply Hb | exact H].
Qed.

Lemma typed_once_ensure (sqlite : engine) (c : string) (names : list string) (w : world) :
  (forall x, In x names -> str_in x reserved_columns = false ->
             bare_name sqlite x = true) ->
  typed_once c w -> typed_once c (after (ensure_columns_exist sqlite names) w).
Proof.
  intros Hb H. unfold after. rewrite ensure_columns_exist_eq.
  apply (for_each_keeps_in (typed_once c)).
  - intros x w1 Hx. apply typed_once_body. now apply Hb.
  - now apply (typed_once_same_db c w).
Qed.

Lemma listed_typed_once (c : string) (w : world) (t : table) :
  db w = Some t -> listed c w -> typed_once c w ->
  count_named c t = 1 /\ column_type c t = Some (inferred_type c).
Proof.
  unfold listed, typed_once. intros -> Hl [Hcount Htype].
  apply str_in_In in Hl. cbn [sql_table_info] in Hl.
  destruct (find_named c (table_columns t) Hl) as [col [Hfind Hname]].
  split.
  - unfold count_named in *.
    assert (Hin : In col (filter (fun col0 => String.eqb c (cname col0))
                                 (table_columns t))).
    { apply filter_In. split; [eapply find_some; eassumption |].
      rewrite Hname. apply String.eqb_refl. }
    destruct (filter _ (table_columns t)); [destruct Hin | simpl in *; lia].
  - unfold column_type. rewrite Hfind. cbn [option_map]. f_equal.
    apply Htype; [| exact Hname]. eapply find_some. eassumption.
Qed.

Lemma reserved_listed (c : string) (t : table) :
  str_in c reserved_columns = true -> In c (column_names t).
Proof.
  intros H. apply str_in_In in H. unfold column_names, table_columns.
  rewrite map_app. apply in_or_app. left. exact H.
Qed.

Lemma not_at_not_timestamp (name : string) :
  endswith name "_at" = false ->
  str_in name ["created_at"; "updated_at"] = false.
Proof.
  intros H. apply str_in_false. intros [<- | [<- | []]]; discriminate.
Qed.

Section Inference.

Variable sqlite : engine.

(** The first batch that carries a new column adds it once, with the type
    inferred from its name; the same batch again leaves the schema. *)
Lemma schema_growth (df : DataFrame) (pk : option (list string))
    (clock : nat -> string) (io_fault : nat -> bool) (w : world) (t : table)
    (c : string) :
  db w = Some t -> ~ In c (column_names t) -> In c (columns df) ->
  df_empty df = false ->
  outcome (upsert_rows sqlite df pk clock io_fault) w = Returned tt ->
  exists t1,
    db (after (upsert_rows sqlite df pk clock io_fault) w) = Some t1 /\
    count_named c t1 = 1 /\
    column_type c t1 = Some (inferred_type c) /\
    forall pk' clock' io_fault',
      schema_of (db (after (upsert_rows sqlite df pk' clock' io_fault')
                           (after (upsert_rows sqlite df pk clock io_fault)
                                  w))) =
        Some (table_columns t1).
Proof.
  intros Hdb Hnew Hin Hfull Hret.
  destruct (upsert_rows_returned sqlite df pk clock io_fault w Hfull Hret)
    as [wm [tm [t1 [He [Hm [Hrun H1]]]]]].
  assert (Hcols : extra_columns t1 = extra_columns tm)
    by exact (run_rows_columns sqlite _ _ _ _ _ _ _ Hrun).
  pose proof (returned_labels_bare sqlite df pk clock io_fault w Hfull Hret)
    as Hbare.
  assert (Ht : typed_once c wm).
  { pose proof (typed_once_ensure sqlite c (columns df) w Hbare) as H.
    unfold after in H. rewrite He in H. apply H.
    unfold typed_once. rewrite Hdb. split.
    - rewrite (count_named_zero c t Hnew). lia.
    - intros col Hcol Hname. exfalso. apply Hnew. rewrite <- Hname.
      unfold column_names. now apply in_map. }
  assert (Hlisted : forall x, In x (columns df) -> In x (column_names tm)).
  { intros x Hx.
    destruct (ensure_columns_exist_returned sqlite _ _ _ Hbare He x Hx)
      as [Hl | Hr].
    - unfold listed in Hl. rewrite Hm in Hl. now apply str_in_In in Hl.
    - now apply reserved_listed. }
  assert (Hl : listed c wm).
  { unfold listed. rewrite Hm. apply str_in_In. now apply Hlisted. }
  destruct (listed_typed_once c wm tm Hm Hl Ht) as [Hcount Htype].
  exists t1. split; [exact H1 |].
  assert (Hsame : table_columns t1 = table_columns tm)
    by (unfold table_columns; now rewrite Hcols).
  split; [unfold count_named in *; now rewrite Hsame |].
  split; [unfold column_type in *; now rewrite Hsame |].
  intros pk' clock' io_fault'.
  set (w1 := after (upsert_rows sqlite df pk clock io_fault) w) in *.
  assert (Hnothing : db (after (ensure_columns_exist sqlite (columns df)) w1) = db w1).
  { apply ensure_columns_exist_nothing. intros x Hx. left.
    unfold listed. rewrite H1. apply str_in_In. cbn [sql_table_info].
    unfold column_names. rewrite Hsame. now apply Hlisted. }
  destruct (missing_pk df (pk_or_default pk')) as [| m ms] eqn:Hmiss.
  - rewrite (upsert_rows_schema sqlite df pk' clock' io_fault' w1 Hfull Hmiss).
    now rewrite Hnothing, H1.
  - unfold after at 1. rewrite upsert_rows_eq, Hfull, Hmiss. cbn [snd].
    now rewrite H1.
Qed.

(** C4, as the code has it.  The type of a new column is a function of
    its name: DATETIME for a name ending in [_at]; otherwise INTEGER for a
    name that contains, in any case, one of idade, anos, filhos, count (so
    for every name ending in one of them); otherwise REAL for a name that
    contains one of peso, renda, per_capita; otherwise TEXT.  A call of
    [upsert_rows] never changes the type of a column that exists.  A batch
    with rows whose call returns and that carries a column the table has
    not, adds it once with the inferred type, REAL for
    [renda_per_capita], and the same batch again leaves the schema as it
    is. *)
Theorem type_inference_at_creation :
  (forall name,
      (endswith name "_at" = true -> inferred_type name = "DATETIME") /\
      (forall k, In k integer_keywords -> endswith (lower name) k = true ->
                 inferred_type name = "INTEGER") /\
      (endswith name "_at" = false ->
       inferred_type name =
         if existsb (fun k => contains k (lower name)) integer_keywords
         then "INTEGER"
         else if existsb (fun k => contains k (lower name)) real_keywords
              then "REAL" else "TEXT")) /\
  (forall df pk clock io_fault w c ty,
      type_in c (db w) = Some ty ->
      type_in c (db (after (upsert_rows sqlite df pk clock io_fault) w)) =
        Some ty) /\
  (forall df pk clock io_fault w t c,
      db w = Some t -> ~ In c (column_names t) -> In c (columns df) ->
      df_empty df = false ->
      outcome (upsert_rows sqlite df pk clock io_fault) w = Returned tt ->
      exists t1,
        db (after (upsert_rows sqlite df pk clock io_fault) w) = Some t1 /\
        count_named c t1 = 1 /\
        column_type c t1 = Some (inferred_type c) /\
        forall pk' clock' io_fault',
          schema_of (db (after (upsert_rows sqlite df pk' clock' io_fault')
                               (after (upsert_rows sqlite df pk clock
                                                   io_fault) w))) =
            Some (table_columns t1)) /\
  inferred_type "renda_per_capita" = "REAL".
Proof.
  split; [| split; [| split]].
  - intros name. split; [| split].
    + intros H. unfold inferred_type. now rewrite H.
    + apply integer_suffix_inferred.
    + intros H. unfold inferred_type.
      now rewrite H, (not_at_not_timestamp name H).
  - intros df pk clock io_fault w c ty.
    apply columns_grow_type. apply upsert_rows_columns_grow.
  - apply schema_growth.
  - reflexivity.
Qed.

End Inference.

Lemma type_inference_at_creation_witness :
  exists t1,
    db (after (upsert_rows no_coercion income_frame None example_clock
                 no_fault) fresh_world) = Some t1 /\
    count_named "renda_per_capita" t1 = 1 /\
    column_type "renda_per_capita" t1 = Some "REAL".
Proof.
  destruct (proj1 (proj2 (proj2 (type_inference_at_creation no_coercion)))
              income_frame None example_clock no_fault fresh_world
              {| extra_columns := []; trows := [] |} "renda_per_capita")
    as [t1 [H1 [H2 [H3 _]]]].
  - reflexivity.
  - simpl. intros [H | [H | [H | [H | []]]]]; discriminate.
  - simpl. auto.
  - reflexivity.
  - reflexivity.
  - exists t1. auto.
Defined.

(** C4 as worded fails on two names that are not reserved.  [visited_at]
    is neither an age or count name nor a money or weight name, and its
    column is DATETIME, not TEXT.  [idade_mae] does not end in a keyword
    and is no money or weight name, and its column is INTEGER, not TEXT. *)
Lemma inferred_type_outside_the_three_classes :
  str_in "visited_at" reserved_columns = false /\
  type_in "visited_at"
    (db (after (ensure_columns_exist no_coercion ["visited_at"])
               fresh_world)) =
    Some "DATETIME" /\
  str_in "idade_mae" reserved_columns = false /\
  existsb (fun k => endswith (lower "idade_mae") k) integer_keywords = false /\
  existsb (fun k => contains k (lower "idade_mae")) real_keywords = false /\
  type_in "idade_mae"
    (db (after (ensure_columns_exist no_coercion ["idade_mae"])
               fresh_world)) =
    Some "INTEGER".
Proof. repeat split. Qed.

(** * More facts about the client *)

(** ** Keys of a dictionary *)

Lemma dict_find_key {V} (k : string) (d : dict V) (v : V) :
  dict_find k d = Some v -> In k (dict_keys d).
Proof.
  induction d as [| [k' v'] d IH]; [discriminate |].
  cbn [dict_find dict_keys map fst]. destruct (String.eqb k k') eqn:E.
  - apply String.eqb_eq in E. intros _. left. now symmetry.
  - intros H. right. now apply IH.
Qed.

Lemma dict_key_find {V} (k : string) (d : dict V) :
  In k (dict_keys d) -> exists v, dict_find k d = Some v.
Proof.
  induction d as [| [k' v'] d IH]; [intros [] |].
  cbn [dict_find dict_keys map fst]. intros Hin.
  destruct (String.eqb k k') eqn:E; [eauto |].
  destruct Hin as [-> | Hin]; [| now apply IH].
  now rewrite String.eqb_refl in E.
Qed.

(** ** Reading the schema *)

(** X5: [table_exists] answers whether the table is there and changes
    neither the database nor the log; after [ensure_table_exists] it
    answers [True]; and [ensure_table_exists] leaves a table that is there
    as it is, columns and rows. *)
Theorem table_exists_after_ensure (w : world) :
  (outcome table_exists w = Returned true <-> db w <> None) /\
  (db (after table_exists w) = db w /\
   logs (after table_exists w) = logs w) /\
  outcome table_exists (after ensure_table_exists w) = Returned true /\
  (forall t, db w = Some t -> db (after ensure_table_exists w) = Some t).
Proof.
  unfold outcome, after. rewrite !table_exists_eq, ensure_table_exists_eq.
  cbn [fst snd opened db logs]. repeat split.
  - intros H Hnone. rewrite Hnone in H. discriminate.
  - intros H. destruct (db w); [reflexivity | congruence].
  - destruct (db w); reflexivity.
  - intros t Ht. now rewrite Ht.
Qed.

Lemma table_exists_after_ensure_witness :
  db stored_world <> None /\
  outcome table_exists stored_world = Returned true.
Proof.
  assert (H : db stored_world <> None) by discriminate.
  split; [exact H |].
  exact (proj2 (proj1 (table_exists_after_ensure stored_world)) H).
Defined.





(** ** What every operation keeps *)

Lemma existsb_mapped {A B} (f : B -> bool) (g : A -> B) (xs : list A) :
  existsb f (map g xs) = existsb (fun x => f (g x)) xs.
Proof.
  induction xs as [| x xs IH]; [reflexivity |].
  cbn [map existsb]. now rewrite IH.
Qed.

Lemma NoDup_snoc {A} (xs : list A) (x : A) :
  NoDup xs -> ~ In x xs -> NoDup (xs ++ [x]).
Proof.
  induction xs as [| y xs IH]; intros Hnd Hout.
  - cbn. apply NoDup_cons; [intros [] | apply NoDup_nil].
  - cbn [app]. apply NoDup_cons_iff in Hnd. destruct Hnd as [Hy Hnd].
    apply NoDup_cons.
    + intros Hin. apply in_app_or in Hin. destruct Hin as [Hin | [<- | []]].
      * now apply Hy.
      * apply Hout. now left.
    + apply IH; [exact Hnd |]. intros Hin. apply Hout. now right.
Qed.

Lemma replace_first_keys (p : row -> bool) (f : row -> row) (rs : list row) :
  (forall r, p r = true -> row_key (f r) = row_key r) ->
  map row_key (replace_first p f rs) = map row_key rs.
Proof.
  intros H. induction rs as [| r rs IH]; [reflexivity |].
  cbn [replace_first]. destruct (p r) eqn:E; cbn [map].
  - now rewrite (H r E).
  - now rewrite IH.
Qed.

Lemma replace_first_in (p : row -> bool) (f : row -> row) (rs : list row)
    (r : row) :
  In r (replace_first p f rs) -> In r rs \/ exists old, In old rs /\ r = f old.
Proof.
  induction rs as [| r0 rs IH]; [intros [] |].
  cbn [replace_first]. destruct (p r0).
  - intros [<- | Hin]; [right; exists r0; split; [now left | reflexivity] |].
    left. now right.
  - intros [<- | Hin]; [left; now left |].
    destruct (IH Hin) as [H | [old [H1 H2]]]; [left; now right |].
    right. exists old. split; [now right | exact H2].
Qed.

Lemma add_key_in (k k' : key) (ks : list key) :
  In k' (add_key k ks) <-> In k' ks \/ k' = k.
Proof.
  unfold add_key. destruct (existsb _ ks) eqn:E.
  - split; [auto |]. intros [H | ->]; [exact H |].
    apply existsb_exists in E. destruct E as [k0 [Hin Heq]].
    apply key_eqb_eq in Heq. now subst.
  - rewrite in_app_iff. cbn. intuition.
Qed.

Lemma add_key_distinct (k : key) (ks : list key) :
  NoDup ks -> NoDup (add_key k ks).
Proof.
  intros H. unfold add_key. destruct (existsb _ ks) eqn:E; [exact H |].
  apply NoDup_snoc; [exact H |]. intros Hin.
  assert (Hex : existsb (fun k' => key_eqb k' k) ks = true).
  { apply existsb_exists. exists k. split; [exact Hin | apply key_eqb_refl]. }
  congruence.
Qed.


Lemma dict_keys_built (f : column -> value) (cols : list column) :
  dict_keys (map (fun col => (cname col, f col)) cols) = map cname cols.
Proof. unfold dict_keys. rewrite map_map. reflexivity. Qed.

Section Statement.

Variable sqlite : engine.

(** An updated row has cells for columns of the table only. *)
Lemma dict_keys_updated (stmt : upsert_stmt) (now : string) (excl : row)
    (t : table) (old : row) :
  incl (dict_keys (updated_row sqlite stmt now excl t old)) (column_names t).
Proof.
  unfold updated_row, column_names.
  induction (table_columns t) as [| col cols IH]; [intros c [] |].
  cbn [flat_map map]. unfold dict_keys in *. rewrite map_app.
  intros c Hin. apply in_app_or in Hin. destruct Hin as [Hin | Hin].
  - destruct (updated_cell _ _ _ _ _ col); [| destruct Hin].
    destruct Hin as [<- | []]. now left.
  - right. now apply IH.
Qed.

(** The keys of the rows after one execution. *)
Lemma exec_upsert_keys (stmt : upsert_stmt) (now : string)
    (vals : list value) (t t' : table) :
  exec_upsert sqlite stmt now vals t = Returned t' ->
  let k := row_key (excluded_row sqlite stmt now vals t) in
  extra_columns t' = extra_columns t /\
  map row_key (trows t') = add_key k (map row_key (trows t)) /\
  is_null (fst k) = false /\ is_null (snd k) = false.
Proof.
  intros H k. unfold exec_upsert in H.
  destruct (find _ (table_columns t)) as [c |] eqn:Hfind; [discriminate |].
  pose proof (find_none _ _ Hfind) as Hnone.
  assert (Ho : is_null (fst k) = false).
  { specialize (Hnone (mkColumn "origem" "TEXT" true NoDefault)).
    cbn [cnotnull cname andb] in Hnone. apply Hnone. simpl. auto. }
  assert (Hi : is_null (snd k) = false).
  { specialize (Hnone (mkColumn "identificador_unidade" "TEXT" true NoDefault)).
    cbn [cnotnull cname andb] in Hnone. apply Hnone. simpl. auto. }
  unfold add_key. rewrite existsb_mapped. fold k in H.
  destruct (existsb (fun r => key_eqb (row_key r) k) (trows t)) eqn:E;
    injection H as <-; cbn [extra_columns trows];
    repeat split; try assumption.
  - apply replace_first_keys. intros r Hr. apply key_eqb_eq in Hr.
    rewrite Hr. now apply updated_row_key.
  - now rewrite map_app.
Qed.

(** The rows after one execution: the rows before, or rows built column
    by column. *)
Lemma exec_upsert_rows (stmt : upsert_stmt) (now : string)
    (vals : list value) (t t' : table) (r : row) :
  exec_upsert sqlite stmt now vals t = Returned t' ->
  In r (trows t') ->
  In r (trows t) \/ incl (dict_keys r) (column_names t).
Proof.
  intros H Hin. unfold exec_upsert in H.
  destruct (find _ (table_columns t)); [discriminate |].
  destruct (existsb _ (trows t)); injection H as <-; cbn [trows] in Hin.
  - apply replace_first_in in Hin. destruct Hin as [Hin | [old [_ ->]]];
      [now left | right].
    apply dict_keys_updated.
  - apply in_app_or in Hin. destruct Hin as [Hin | [<- | []]];
      [now left | right].
    unfold excluded_row. rewrite dict_keys_built. apply incl_refl.
Qed.

End Statement.

Section Kept.

Variable sqlite : engine.

Variable I : database -> Prop.

Hypothesis Hcreate : I None -> I (Some {| extra_columns := []; trows := [] |}).

Hypothesis Hadd :
  forall name ty d d',
    I d -> sql_add_column sqlite name ty d = Returned d' -> I d'.

Hypothesis Hexec :
  forall stmt now vals t t',
    I (Some t) -> exec_upsert sqlite stmt now vals t = Returned t' ->
    I (Some t').

Lemma ensure_table_exists_keeps (w : world) :
  I (db w) -> I (db (after ensure_table_exists w)).
Proof.
  unfold after. rewrite ensure_table_exists_eq.
  destruct (db w) as [t |]; cbn [snd db]; auto.
Qed.

Lemma add_column_if_not_exists_keeps (name ty : string) (w : world) :
  I (db w) -> I (db (after (add_column_if_not_exists sqlite name ty) w)).
Proof.
  intros H. unfold after. rewrite add_column_if_not_exists_eq.
  destruct (str_in name (sql_table_info (db w))); [exact H |].
  destruct (sql_add_column sqlite name ty (db w)) as [d | e] eqn:Ha; [| exact H].
  cbn [snd db]. exact (Hadd _ _ _ _ H Ha).
Qed.

Lemma ensure_columns_exist_keeps (names : list string) (w : world) :
  I (db w) -> I (db (after (ensure_columns_exist sqlite names) w)).
Proof.
  intros H. unfold after. rewrite ensure_columns_exist_eq.
  apply (for_each_keeps (fun w0 => I (db w0))); [| exact H].
  intros x w0 H0. unfold ensure_body.
  destruct (str_in x (sql_table_info (db w))); [exact H0 |].
  destruct (str_in x reserved_columns); [exact H0 |].
  now apply add_column_if_not_exists_keeps.
Qed.

Lemma run_rows_keeps_it (stmt : upsert_stmt) (clock : nat -> string)
    (io_fault : nat -> bool) (rows : list (list value)) :
  forall i t t',
    run_rows sqlite stmt clock io_fault i rows t = (Returned tt, t') ->
    I (Some t) -> I (Some t').
Proof.
  induction rows as [| vals rest IH]; intros i t t' H Ht.
  - now injection H as <-.
  - apply run_rows_cons in H. destruct H as [_ [_ [t1 [H1 H2]]]].
    apply (IH _ _ _ H2). exact (Hexec _ _ _ _ _ Ht H1).
Qed.

Lemma upsert_rows_keeps_it (df : DataFrame) (pk : option (list string))
    (clock : nat -> string) (io_fault : nat -> bool) (w : world) :
  I (db w) -> I (db (after (upsert_rows sqlite df pk clock io_fault) w)).
Proof.
  intros H. unfold after. rewrite upsert_rows_eq.
  destruct (df_empty df); [exact H |].
  destruct (missing_pk df (pk_or_default pk)); [| exact H].
  pose proof (ensure_columns_exist_keeps (columns df) w H) as H1.
  unfold after in H1.
  destruct (ensure_columns_exist sqlite (columns df) w) as [[[] | e] w1];
    cbn [snd] in *; [| exact H1].
  destruct (sql_executemany _ _ _ _ _ (db w1)) as [[[] | e] d] eqn:Hx;
    cbn [db]; [| exact H1].
  apply sql_executemany_returned in Hx. destruct Hx as [t [t' [Ht [-> [_ Hrun]]]]].
  rewrite Ht in H1. exact (run_rows_keeps_it _ _ _ _ _ _ _ Hrun H1).
Qed.

Lemma run_operation_keeps (op : operation) (w : world) :
  I (db w) -> I (db (run_operation sqlite op w)).
Proof.
  destruct op; cbn [run_operation].
  - intros H. exact H.
  - intros H. exact H.
  - apply ensure_table_exists_keeps.
  - apply add_column_if_not_exists_keeps.
  - apply ensure_columns_exist_keeps.
  - apply upsert_rows_keeps_it.
Qed.

Lemma run_operations_keeps (ops : list operation) :
  forall w, I (db w) -> I (db (run_operations sqlite ops w)).
Proof.
  induction ops as [| op ops IH]; intros w H; [exact H |].
  unfold run_operations. cbn [fold_left]. apply IH.
  now apply run_operation_keeps.
Qed.

End Kept.

Section Invariants.

Variable sqlite : engine.

Lemma sql_add_column_rows (name ty : string) (d d' : database) :
  sql_add_column sqlite name ty d = Returned d' ->
  rows_of d' = rows_of d /\
  exists t col,
    d = Some t /\
    read_column_def sqlite name ty = Returned col /\
    existsb (fun c => same_name (cname col) (cname c)) (table_columns t)
      = false /\
    d' = Some {| extra_columns := extra_columns t ++ [col];
                 trows := trows t |}.
Proof.
  intros H. apply sql_add_column_returned in H.
  destruct H as [t [col [-> [Hread [_ [Hclash ->]]]]]].
  split; [reflexivity |]. now exists t, col.
Qed.

Lemma run_operations_keys_unique (ops : list operation) (w : world) :
  keys_unique (db w) -> keys_unique (db (run_operations sqlite ops w)).
Proof.
  apply (run_operations_keeps sqlite keys_unique).
  - intros _. apply NoDup_nil.
  - intros name ty d d' H Ha. unfold keys_unique, stored_keys in *.
    now rewrite (proj1 (sql_add_column_rows _ _ _ _ Ha)).
  - intros stmt now vals t t' H Hx. unfold keys_unique, stored_keys in *.
    cbn [rows_of] in *.
    destruct (exec_upsert_keys sqlite _ _ _ _ _ Hx) as [_ [-> _]].
    now apply add_key_distinct.
Qed.

Lemma run_operations_keys_not_null (ops : list operation) (w : world) :
  keys_not_null (db w) -> keys_not_null (db (run_operations sqlite ops w)).
Proof.
  apply (run_operations_keeps sqlite keys_not_null).
  - intros _ k [].
  - intros name ty d d' H Ha. unfold keys_not_null, stored_keys in *.
    now rewrite (proj1 (sql_add_column_rows _ _ _ _ Ha)).
  - intros stmt now vals t t' H Hx k Hin. unfold keys_not_null, stored_keys in *.
    cbn [rows_of] in *.
    destruct (exec_upsert_keys sqlite _ _ _ _ _ Hx) as [_ [Hk [Ho Hi]]].
    rewrite Hk in Hin. apply add_key_in in Hin.
    destruct Hin as [Hin | ->]; [now apply H | auto].
Qed.

(** X8: primary key uniqueness.  When no two stored rows have the same
    (origem, identificador_unidade), no sequence of calls of the client,
    whatever they answer, makes two rows have the same key; so it is on
    every database made by the client from a new file. *)
Theorem primary_key_stays_unique (ops : list operation) (w : world) :
  keys_unique (db w) -> keys_unique (db (run_operations sqlite ops w)).
Proof. apply run_operations_keys_unique. Qed.

(** X9: no NULL in the key.  When no stored row has a NULL [origem] or
    [identificador_unidade], no sequence of calls of the client stores
    one. *)
Theorem primary_key_stays_not_null (ops : list operation) (w : world) :
  keys_not_null (db w) -> keys_not_null (db (run_operations sqlite ops w)).
Proof. apply run_operations_keys_not_null. Qed.

Lemma same_columns_schema_ok (t t' : table) :
  extra_columns t' = extra_columns t ->
  schema_ok (Some t) -> schema_ok (Some t').
Proof.
  unfold schema_ok, column_names, table_columns. now intros ->.
Qed.

Lemma base_names_distinct :
  NoDup (map lower (map cname base_columns)).
Proof.
  cbn.
  repeat (apply NoDup_cons;
          [simpl; intros H;
           repeat (destruct H as [H | H]; [discriminate |]); exact H |]).
  apply NoDup_nil.
Qed.

Lemma sql_add_column_names_distinct (name ty : string) (d d' : database) :
  names_distinct d -> sql_add_column sqlite name ty d = Returned d' ->
  names_distinct d'.
Proof.
  intros Hnd Ha.
  destruct (sql_add_column_rows _ _ _ _ Ha) as [_ [t [col [-> [_ [Hclash ->]]]]]].
  cbn [names_distinct] in *.
  assert (Hnames : column_names
                     {| extra_columns := extra_columns t ++ [col];
                        trows := trows t |} =
                   column_names t ++ [cname col]).
  { unfold column_names, table_columns. cbn [extra_columns].
    now rewrite app_assoc, map_app. }
  rewrite Hnames, map_app. cbn [map].
  apply NoDup_snoc; [exact Hnd |].
  intros Hin. apply in_map_iff in Hin. destruct Hin as [n [Hl Hn]].
  unfold column_names in Hn. apply in_map_iff in Hn.
  destruct Hn as [c0 [Hname Hcol]].
  assert (Hex : existsb (fun c => same_name (cname col) (cname c))
                        (table_columns t) = true).
  { apply existsb_exists. exists c0. split; [exact Hcol |].
    unfold same_name. rewrite Hname, Hl. apply String.eqb_refl. }
  congruence.
Qed.

Lemma schema_ok_split (d : database) :
  schema_ok d <->
  (forall t, d = Some t -> Forall plain_column (extra_columns t)) /\
  names_distinct d.
Proof.
  destruct d as [t |]; cbn [schema_ok names_distinct].
  - split.
    + intros [Hp Hn]. split; [| exact Hn]. intros t0 H. now injection H as <-.
    + intros [Hp Hn]. split; [now apply Hp | exact Hn].
  - split; [| auto]. intros _. split; [discriminate | exact I].
Qed.

Lemma sql_add_column_schema_ok (name ty : string) (d d' : database) :
  plain_request sqlite name ty = true ->
  schema_ok d -> sql_add_column sqlite name ty d = Returned d' -> schema_ok d'.
Proof.
  intros Hreq Hs Ha. apply schema_ok_split. apply schema_ok_split in Hs.
  destruct Hs as [Hplain Hnd].
  split; [| exact (sql_add_column_names_distinct _ _ _ _ Hnd Ha)].
  destruct (sql_add_column_rows _ _ _ _ Ha) as [_ [t [col [-> [Hread [_ ->]]]]]].
  unfold plain_request in Hreq. apply andb_true_iff in Hreq.
  destruct Hreq as [Hb Hty]. apply str_in_In in Hty.
  rewrite (read_column_def_plain sqlite name ty Hb Hty) in Hread.
  injection Hread as <-.
  intros t0 H. injection H as <-. cbn [extra_columns].
  apply Forall_app. split; [now apply Hplain |].
  apply Forall_cons; [split; reflexivity | apply Forall_nil].
Qed.

Lemma plain_label_request (c : string) :
  plain_label sqlite c = true -> str_in c reserved_columns = false ->
  plain_request sqlite c (inferred_type c) = true.
Proof.
  unfold plain_label, plain_request. intros H Hr. rewrite Hr in H.
  cbn [orb] in H.
  rewrite H. apply str_in_In. apply inferred_type_plain.
Qed.


Section Asked.

Variable I : database -> Prop.

Hypothesis Hadd :
  forall name ty d d',
    plain_request sqlite name ty = true ->
    I d -> sql_add_column sqlite name ty d = Returned d' -> I d'.

Lemma add_plain_keeps (name ty : string) (w : world) :
  plain_request sqlite name ty = true ->
  I (db w) -> I (db (after (add_column_if_not_exists sqlite name ty) w)).
Proof.
  intros Hreq H. unfold after. rewrite add_column_if_not_exists_eq.
  destruct (str_in name (sql_table_info (db w))); [exact H |].
  destruct (sql_add_column sqlite name ty (db w)) as [d | e] eqn:Ha;
    [| exact H].
  cbn [snd db]. exact (Hadd _ _ _ _ Hreq H Ha).
Qed.

Lemma ensure_plain_keeps (names : list string) (w : world) :
  forallb (plain_label sqlite) names = true ->
  I (db w) -> I (db (after (ensure_columns_exist sqlite names) w)).
Proof.
  intros Hall H. unfold after. rewrite ensure_columns_exist_eq.
  apply (for_each_keeps_in (fun w0 => I (db w0))); [| exact H].
  intros x w0 Hx H0. unfold ensure_body.
  destruct (str_in x (sql_table_info (db w))); [exact H0 |].
  destruct (str_in x reserved_columns) eqn:Hr; [exact H0 |].
  apply add_plain_keeps; [| exact H0].
  apply plain_label_request; [| exact Hr].
  rewrite forallb_forall in Hall. now apply Hall.
Qed.

End Asked.

Lemma add_plain_schema_ok (name ty : string) (w : world) :
  plain_request sqlite name ty = true ->
  schema_ok (db w) ->
  schema_ok (db (after (add_column_if_not_exists sqlite name ty) w)).
Proof.
  apply add_plain_keeps. intros n ty0 d d' Hreq.
  now apply sql_add_column_schema_ok.
Qed.

Lemma ensure_plain_schema_ok (names : list string) (w : world) :
  forallb (plain_label sqlite) names = true ->
  schema_ok (db w) ->
  schema_ok (db (after (ensure_columns_exist sqlite names) w)).
Proof.
  apply ensure_plain_keeps. intros n ty0 d d' Hreq.
  now apply sql_add_column_schema_ok.
Qed.

Lemma same_schema_ok (d d' : database) :
  schema_of d' = schema_of d -> schema_ok d -> schema_ok d'.
Proof.
  destruct d as [t |], d' as [t' |]; cbn [schema_of option_map];
    try discriminate; [| auto].
  intros H. injection H as H.
  unfold schema_ok, column_names, table_columns. now rewrite H.
Qed.

Lemma upsert_plain_schema_ok (df : DataFrame) (pk : option (list string))
    (clock : nat -> string) (io_fault : nat -> bool) (w : world) :
  forallb (plain_label sqlite) (columns df) = true ->
  schema_ok (db w) ->
  schema_ok (db (after (upsert_rows sqlite df pk clock io_fault) w)).
Proof.
  intros Hall H.
  destruct (df_empty df) eqn:Hfull;
    [unfold after; rewrite upsert_rows_eq, Hfull; exact H |].
  destruct (missing_pk df (pk_or_default pk)) as [| m ms] eqn:Hpk;
    [| unfold after; rewrite upsert_rows_eq, Hfull, Hpk; exact H].
  apply (same_schema_ok
           (db (after (ensure_columns_exist sqlite (columns df)) w))).
  - now apply upsert_rows_schema.
  - now apply ensure_plain_schema_ok.
Qed.

Lemma run_operations_plain (ops : list operation) :
  forall w,
    forallb (asks_plain sqlite) ops = true ->
    schema_ok (db w) -> schema_ok (db (run_operations sqlite ops w)).
Proof.
  induction ops as [| op ops IH]; intros w Hall H; [exact H |].
  cbn [forallb] in Hall. apply andb_true_iff in Hall.
  destruct Hall as [Hop Hall].
  unfold run_operations. cbn [fold_left]. apply IH; [exact Hall |].
  destruct op; cbn [run_operation asks_plain] in *.
  - exact H.
  - exact H.
  - unfold after. rewrite ensure_table_exists_eq.
    destruct (db w) as [t |]; cbn [snd db]; [exact H |].
    split; [apply Forall_nil |].
    unfold column_names, table_columns. cbn [extra_columns].
    rewrite app_nil_r. exact base_names_distinct.
  - now apply add_plain_schema_ok.
  - now apply ensure_plain_schema_ok.
  - now apply upsert_plain_schema_ok.
Qed.

(** X10: the schema stays well formed.  When no two columns of the table
    have the same name up to case and every cell of a stored row belongs
    to a column of the table, the same holds after any sequence of calls
    of the client.  When, besides, the columns added to the table are
    nullable and without default, they are so after any sequence of calls
    that asks for columns by bare names, with plain types where the caller
    gives the type. *)
Theorem schema_stays_well_formed (ops : list operation) (w : world) :
  (names_distinct (db w) /\ cells_in_schema (db w) ->
   names_distinct (db (run_operations sqlite ops w)) /\
   cells_in_schema (db (run_operations sqlite ops w))) /\
  (forallb (asks_plain sqlite) ops = true ->
   schema_ok (db w) -> schema_ok (db (run_operations sqlite ops w))).
Proof.
  split; [| apply run_operations_plain].
  apply (run_operations_keeps sqlite
           (fun d => names_distinct d /\ cells_in_schema d)).
  - intros _. split.
    + cbn [names_distinct]. unfold column_names, table_columns.
      cbn [extra_columns]. rewrite app_nil_r. exact base_names_distinct.
    + intros r c [].
  - intros name ty d d' [Hs Hc] Ha.
    split; [exact (sql_add_column_names_distinct _ _ _ _ Hs Ha) |].
    destruct (sql_add_column_rows _ _ _ _ Ha) as [_ [t [col [-> [_ [_ ->]]]]]].
    cbn [cells_in_schema trows] in *. intros r c Hr Hin.
    specialize (Hc r c Hr Hin). unfold column_names, table_columns in *.
    cbn [extra_columns]. rewrite app_assoc, map_app.
    apply in_or_app. now left.
  - intros stmt now vals t t' [Hs Hc] Hx.
    destruct (exec_upsert_keys sqlite _ _ _ _ _ Hx) as [Hcols _].
    split.
    + cbn [names_distinct] in *. now rewrite (same_columns_names _ _ Hcols).
    + cbn [cells_in_schema] in *. intros r c Hr Hin.
      rewrite (same_columns_names _ _ Hcols).
      destruct (exec_upsert_rows sqlite _ _ _ _ _ r Hx Hr) as [Hold | Hnew].
      * exact (Hc r c Hold Hin).
      * now apply Hnew.
Qed.


End Invariants.

(** The statement sent again after it added a column is refused. *)
Lemma sql_add_column_again (sqlite : engine) (name ty : string)
    (d d' : database) :
  sql_add_column sqlite name ty d = Returned d' ->
  exists e, sql_add_column sqlite name ty d' = Raised e.
Proof.
  intros H. apply sql_add_column_returned in H.
  destruct H as [t [col [_ [Hread [_ [_ ->]]]]]].
  unfold sql_add_column. rewrite Hread.
  destruct (max_columns sqlite <=? _)%nat; [now eexists |].
  assert (Hclash : existsb (fun c => same_name (cname col) (cname c))
                     (table_columns
                        {| extra_columns := extra_columns t ++ [col];
                           trows := trows t |}) = true).
  { unfold table_columns. cbn [extra_columns].
    rewrite !existsb_app. cbn [existsb]. rewrite same_name_refl.
    cbn [orb]. now rewrite !orb_true_r. }
  rewrite Hclash. now eexists.
Qed.

(** C8: creating the table and adding a column are idempotent on the
    database, schema and rows: a second call in sequence leaves what the
    first call left.  [ensure_table_exists] returns both times.  The
    second [add_column_if_not_exists] answers as the first did when the
    name is a bare name and the type a plain one; for another name the
    engine may have added a column under a name of its own reading, and
    the second call then raises, changing nothing.  On a file without the
    table [ensure_table_exists] creates it with the columns [origem] and
    [identificador_unidade], both NOT NULL, and [created_at] and
    [updated_at] defaulting to the current time; it has no other column
    and no row.  The two key columns are its primary key: whatever calls
    of the client follow, no two stored rows have the same pair of them
    and no stored row has a NULL in either. *)
Theorem schema_operations_idempotent (sqlite : engine) (w : world)
    (name ty : string) (l : list log_record) (n : nat) :
  (outcome ensure_table_exists w = Returned tt /\
   outcome ensure_table_exists (after ensure_table_exists w) = Returned tt /\
   db (after ensure_table_exists (after ensure_table_exists w)) =
     db (after ensure_table_exists w)) /\
  (db (after (add_column_if_not_exists sqlite name ty)
             (after (add_column_if_not_exists sqlite name ty) w)) =
     db (after (add_column_if_not_exists sqlite name ty) w) /\
   (bare_name sqlite name = true -> In ty plain_types ->
    outcome (add_column_if_not_exists sqlite name ty)
            (after (add_column_if_not_exists sqlite name ty) w) =
      outcome (add_column_if_not_exists sqlite name ty) w)) /\
  (let created :=
     after ensure_table_exists
           {| db := None; logs := l; connections := n |} in
   db created = Some {| extra_columns := []; trows := [] |} /\
   schema_of (db created) =
     Some [ mkColumn "origem" "TEXT" true NoDefault;
            mkColumn "identificador_unidade" "TEXT" true NoDefault;
            mkColumn "created_at" "DATETIME" false DefaultCurrentTimestamp;
            mkColumn "updated_at" "DATETIME" false DefaultCurrentTimestamp ] /\
   rows_of (db created) = [] /\
   forall ops,
     keys_unique (db (run_operations sqlite ops created)) /\
     keys_not_null (db (run_operations sqlite ops created))).
Proof.
  split; [| split].
  - unfold outcome, after. destruct w as [[t |] lw nw];
      repeat (rewrite ensure_table_exists_eq; cbn [db fst snd]); auto.
  - unfold outcome, after.
    rewrite (add_column_if_not_exists_eq sqlite name ty w).
    destruct (str_in name (sql_table_info (db w))) eqn:Hin.
    + cbn [fst snd]. rewrite add_column_if_not_exists_eq. cbn [db].
      rewrite Hin. auto.
    + destruct (sql_add_column sqlite name ty (db w)) as [d | e] eqn:Hadd.
      * cbn [fst snd]. rewrite add_column_if_not_exists_eq. cbn [db].
        destruct (sql_add_column_listed sqlite _ _ _ _ Hadd)
          as [col [Hread Hl]].
        split.
        -- destruct (str_in name (sql_table_info d)); [reflexivity |].
           destruct (sql_add_column_again sqlite _ _ _ _ Hadd) as [e ->].
           reflexivity.
        -- intros Hb Hty.
           rewrite (read_column_def_plain sqlite name ty Hb Hty) in Hread.
           injection Hread as <-. cbn [cname] in Hl. now rewrite Hl.
      * cbn [fst snd]. rewrite add_column_if_not_exists_eq. cbn [db].
        rewrite Hin, Hadd. auto.
  - cbv zeta. unfold after. rewrite ensure_table_exists_eq. cbn [snd db].
    split; [reflexivity |]. split; [reflexivity |].
    split; [reflexivity |]. intros ops. split.
    + apply run_operations_keys_unique. apply NoDup_nil.
    + apply run_operations_keys_not_null. intros k [].
Qed.

Lemma schema_operations_idempotent_witness :
  outcome (add_column_if_not_exists no_coercion "sexo" "TEXT")
          (after (add_column_if_not_exists no_coercion "sexo" "TEXT")
                 fresh_world) =
    outcome (add_column_if_not_exists no_coercion "sexo" "TEXT")
            fresh_world /\
  outcome (add_column_if_not_exists no_coercion "estado civil" "TEXT")
          fresh_world = Returned tt /\
  outcome (add_column_if_not_exists no_coercion "estado civil" "TEXT")
          (after (add_column_if_not_exists no_coercion "estado civil"
                    "TEXT") fresh_world) =
    Raised (DuplicateColumnName "estado") /\
  db (after (add_column_if_not_exists no_coercion "estado civil" "TEXT")
            (after (add_column_if_not_exists no_coercion "estado civil"
                      "TEXT") fresh_world)) =
    db (after (add_column_if_not_exists no_coercion "estado civil" "TEXT")
              fresh_world).
Proof.
  split; [| split; [reflexivity | split; [reflexivity |]]].
  - apply (proj2 (proj1 (proj2 (schema_operations_idempotent no_coercion
                                  fresh_world "sexo" "TEXT" [] 0))));
      [reflexivity | simpl; auto].
  - exact (proj1 (proj1 (proj2 (schema_operations_idempotent no_coercion
                                  fresh_world "estado civil" "TEXT"
                                  [] 0)))).
Defined.

Lemma primary_key_stays_unique_witness :
  keys_unique (db new_file) /\
  keys_unique (db (run_operations no_coercion example_session new_file)).
Proof.
  assert (H : keys_unique (db new_file)) by apply NoDup_nil.
  split; [exact H |].
  exact (primary_key_stays_unique no_coercion example_session new_file H).
Defined.

Lemma primary_key_stays_not_null_witness :
  keys_not_null (db new_file) /\
  keys_not_null (db (run_operations no_coercion example_session new_file)).
Proof.
  assert (H : keys_not_null (db new_file)) by (intros k []).
  split; [exact H |].
  exact (primary_key_stays_not_null no_coercion example_session new_file H).
Defined.

Lemma schema_stays_well_formed_witness :
  (names_distinct (db (run_operations no_coercion example_session
                         new_file)) /\
   cells_in_schema (db (run_operations no_coercion example_session
                          new_file))) /\
  schema_ok (db (run_operations no_coercion example_session new_file)).
Proof.
  split.
  - apply (proj1 (schema_stays_well_formed no_coercion example_session
                    new_file)).
    split; exact I.
  - apply (proj2 (schema_stays_well_formed no_coercion example_session
                    new_file)); [reflexivity | exact I].
Defined.


(** ** The rows after a call *)





Section Stored.

Variable sqlite : engine.




End Stored.



(** ** The cells after a call *)






Section Cells.

Variable sqlite : engine.

Variable stmt : upsert_stmt.

Hypothesis Hok : stmt_ok stmt.



Variable clock : nat -> string.

Variable io_fault : nat -> bool.



End Cells.


Section Written.

Variable sqlite : engine.

Variable df : DataFrame.

Variable pk : option (list string).

Variable clock : nat -> string.

Variable io_fault : nat -> bool.

Variable w : world.

Hypothesis Hfull : df_empty df = false.

Hypothesis Hreturned :
  outcome (upsert_rows sqlite df pk clock io_fault) w = Returned tt.




End Written.

Section Refused.

Variable sqlite : engine.



End Refused.




(** ** Without the table *)





Section Absent.

Variable sqlite : engine.


(** X18: only [ensure_table_exists] creates the table.  On a file without
    the table, after any sequence of calls of the other functions of the
    client, whatever they answered, the table is still not there. *)
Theorem only_ensure_table_exists_creates (ops : list operation) :
  forall w,
    db w = None -> ~ In OpEnsureTableExists ops ->
    db (run_operations sqlite ops w) = None.
Proof.
  assert (Hadd : forall name ty d d',
            d = None -> sql_add_column sqlite name ty d = Returned d' -> d' = None)
    by (intros name ty d d' ->; discriminate).
  assert (Hexec : forall stmt now vals t t',
            Some t = None ->
            exec_upsert sqlite stmt now vals t = Returned t' ->
            Some t' = None)
    by discriminate.
  induction ops as [| op ops IH]; intros w Hw Hnot; [exact Hw |].
  unfold run_operations. cbn [fold_left]. apply IH.
  - destruct op; cbn [run_operation].
    + exact Hw.
    + exact Hw.
    + exfalso. apply Hnot. now left.
    + exact (add_column_if_not_exists_keeps sqlite (fun d => d = None) Hadd
               _ _ w Hw).
    + exact (ensure_columns_exist_keeps sqlite (fun d => d = None) Hadd
               _ w Hw).
    + exact (upsert_rows_keeps_it sqlite (fun d => d = None) Hadd Hexec
               _ _ _ _ w Hw).
  - intros H. apply Hnot. now right.
Qed.

End Absent.


Lemma only_ensure_table_exists_creates_witness :
  db (run_operations no_coercion
        [OpEnsureColumnsExist ["idade"];
         OpUpsertRows (mkCall first_frame None example_clock no_fault);
         OpAddColumnIfNotExists "sexo" "TEXT"] new_file) = None.
Proof.
  refine (only_ensure_table_exists_creates no_coercion _ new_file eq_refl _).
  simpl. intros [H | [H | [H | []]]]; discriminate.
Defined.

(** ** Labels that differ from a column by case *)

Lemma existsb_snoc {A} (p : A -> bool) (xs : list A) (x : A) :
  existsb p xs = true -> existsb p (xs ++ [x]) = true.
Proof. intros H. rewrite existsb_app, H. reflexivity. Qed.

Section CaseClash.

Variable sqlite : engine.

Variable c : string.

(** The table has no column called [c] and one that is [c] up to case. *)
Lemma add_keeps_case_clash (name ty : string) (w : world) :
  (exists t, db w = Some t /\ ~ In c (column_names t) /\
             existsb (fun col => same_name c (cname col)) (table_columns t)
               = true) ->
  exists t,
    db (after (add_column_if_not_exists sqlite name ty) w) = Some t /\
    ~ In c (column_names t) /\
    existsb (fun col => same_name c (cname col)) (table_columns t) = true.
Proof.
  intros [t [Hw [Hc Hclash]]]. unfold after.
  rewrite add_column_if_not_exists_eq.
  destruct (str_in name (sql_table_info (db w))); [now exists t |].
  destruct (sql_add_column sqlite name ty (db w)) as [d | e] eqn:Ha;
    [| now exists t].
  cbn [snd db]. apply sql_add_column_returned in Ha.
  destruct Ha as [t0 [col [Hdb [_ [_ [Hnew ->]]]]]].
  rewrite Hw in Hdb. injection Hdb as <-.
  eexists. split; [reflexivity |]. split.
  - unfold column_names, table_columns. cbn [extra_columns].
    rewrite app_assoc, map_app. intros H. apply in_app_or in H.
    destruct H as [H | [H | []]]; [now apply Hc |].
    rewrite H in Hnew. congruence.
  - unfold table_columns. cbn [extra_columns]. rewrite app_assoc.
    now apply existsb_snoc.
Qed.

Lemma ensure_body_keeps_case_clash (existing : list string) (x : string)
    (w : world) :
  (exists t, db w = Some t /\ ~ In c (column_names t) /\
             existsb (fun col => same_name c (cname col)) (table_columns t)
               = true) ->
  exists t,
    db (after (ensure_body sqlite existing x) w) = Some t /\
    ~ In c (column_names t) /\
    existsb (fun col => same_name c (cname col)) (table_columns t) = true.
Proof.
  intros H. unfold ensure_body.
  destruct (str_in x existing); [exact H |].
  destruct (str_in x reserved_columns); [exact H |].
  now apply add_keeps_case_clash.
Qed.

(** The round of [c] raises when [c] is a bare name. *)
Lemma ensure_body_case_clash (existing : list string) (w : world)
    (t : table) :
  ~ In c existing -> bare_name sqlite c = true ->
  db w = Some t -> ~ In c (column_names t) ->
  existsb (fun col => same_name c (cname col)) (table_columns t) = true ->
  outcome (ensure_body sqlite existing c) w =
    Raised (if (max_columns sqlite <=? length (table_columns t))%nat
            then TooManyColumns else DuplicateColumnName c).
Proof.
  intros Hex Hb Hw Hc Hclash. unfold outcome, ensure_body.
  apply str_in_false in Hex. rewrite Hex.
  assert (Hr : str_in c reserved_columns = false).
  { apply str_in_false. intros H. apply Hc.
    apply reserved_listed. now apply str_in_In. }
  rewrite Hr, add_column_if_not_exists_eq, Hw. cbn [sql_table_info].
  apply str_in_false in Hc. rewrite Hc.
  rewrite (sql_add_column_plain_eq sqlite c _ t Hb (inferred_type_plain c)).
  rewrite Hclash.
  now destruct (max_columns sqlite <=? length (table_columns t))%nat.
Qed.

Lemma for_each_ensure_case_clash (existing : list string) :
  ~ In c existing -> bare_name sqlite c = true ->
  forall names w,
    (exists t, db w = Some t /\ ~ In c (column_names t) /\
               existsb (fun col => same_name c (cname col))
                       (table_columns t) = true) ->
    In c names ->
    exists e,
      outcome (for_each names (ensure_body sqlite existing)) w = Raised e.
Proof.
  intros Hex Hb. induction names as [| x xs IH]; intros w Hinv Hin;
    [destruct Hin |].
  unfold outcome. cbn [for_each]. unfold bind.
  pose proof (ensure_body_keeps_case_clash existing x w Hinv) as Hx.
  unfold after in Hx.
  destruct (ensure_body sqlite existing x w) as [[[] | e] wx] eqn:E;
    [| now exists e].
  cbn [snd] in Hx. destruct Hin as [-> | Hin]; [| exact (IH wx Hx Hin)].
  destruct Hinv as [t [Hw [Hc Hclash]]].
  pose proof (ensure_body_case_clash existing w t Hex Hb Hw Hc Hclash) as H.
  unfold outcome in H. rewrite E in H. discriminate.
Qed.

Lemma for_each_ensure_duplicate (existing : list string) :
  ~ In c existing ->
  forall names w t,
    db w = Some t -> ~ In c (column_names t) ->
    existsb (fun col => same_name c (cname col)) (table_columns t) = true ->
    In c names ->
    forallb (plain_label sqlite) names = true ->
    length (table_columns t) + length names <= max_columns sqlite ->
    exists c',
      In c' names /\
      outcome (for_each names (ensure_body sqlite existing)) w =
        Raised (DuplicateColumnName c').
Proof.
  intros Hex.
  induction names as [| x xs IH]; intros w t Hw Hc Hclash Hin Hall Hroom;
    [destruct Hin |].
  cbn [forallb] in Hall. apply andb_true_iff in Hall.
  destruct Hall as [Hx Hall]. cbn [length] in Hroom.
  assert (Hrest : forall w1 t1,
            db w1 = Some t1 -> ~ In c (column_names t1) ->
            existsb (fun col => same_name c (cname col)) (table_columns t1)
              = true ->
            length (table_columns t1) <= S (length (table_columns t)) ->
            x <> c ->
            exists c',
              In c' (x :: xs) /\
              outcome (for_each xs (ensure_body sqlite existing)) w1 =
                Raised (DuplicateColumnName c')).
  { intros w1 t1 H1 Hc1 Hclash1 Hlen Hne.
    destruct Hin as [Hin | Hin]; [contradiction |].
    destruct (IH w1 t1 H1 Hc1 Hclash1 Hin Hall ltac:(lia)) as [c' [Hc' Hout]].
    exists c'. split; [now right | exact Hout]. }
  unfold outcome. cbn [for_each]. unfold bind, ensure_body.
  destruct (str_in x existing) eqn:E1.
  { apply (Hrest w t Hw Hc Hclash); [lia |]. intros ->. apply Hex.
    now apply str_in_In. }
  destruct (str_in x reserved_columns) eqn:E2.
  { apply (Hrest w t Hw Hc Hclash); [lia |]. intros ->. apply Hc.
    now apply reserved_listed. }
  rewrite add_column_if_not_exists_eq, Hw. cbn [sql_table_info].
  destruct (str_in x (column_names t)) eqn:E3.
  { apply (Hrest _ t); [reflexivity | exact Hc | exact Hclash | lia |].
    intros ->. apply Hc. now apply str_in_In. }
  unfold plain_label in Hx. rewrite E2 in Hx. cbn [orb] in Hx.
  rewrite (sql_add_column_plain_eq sqlite x _ t Hx (inferred_type_plain x)).
  assert (Hmax : (max_columns sqlite <=? length (table_columns t))%nat
                 = false) by (apply Nat.leb_gt; lia).
  rewrite Hmax.
  destruct (existsb (fun col => same_name x (cname col)) (table_columns t))
    eqn:E4.
  { exists x. split; [now left | reflexivity]. }
  assert (Hne : x <> c) by (intros ->; congruence).
  apply (Hrest _ {| extra_columns :=
                      extra_columns t ++
                      [mkColumn x (inferred_type x) false NoDefault];
                    trows := trows t |}); [reflexivity | | | | exact Hne].
  - unfold column_names, table_columns. cbn [extra_columns].
    rewrite app_assoc, map_app. intros H. apply in_app_or in H.
    destruct H as [H | [H | []]]; [now apply Hc | now apply Hne].
  - unfold table_columns. cbn [extra_columns]. rewrite app_assoc.
    now apply existsb_snoc.
  - unfold table_columns. cbn [extra_columns].
    rewrite !length_app. cbn [length]. lia.
Qed.

(** X19: a label that differs from a column by case only is refused.
    When the table has no column called [c] but has one that is [c] up to
    case, and [c] is a bare name, [ensure_columns_exist] on names that
    include [c] raises: the engine's "duplicate column name" for one of
    the names, when the names are reserved or bare and the table has room
    for them.  And [upsert_rows] on a frame with rows that has the label
    [c] raises and stores no row. *)
Theorem case_variant_label_raises (w : world) (t : table) :
  db w = Some t -> ~ In c (column_names t) ->
  (exists col, In col (table_columns t) /\ same_name c (cname col) = true) ->
  (forall names,
     In c names -> bare_name sqlite c = true ->
     (exists e,
        outcome (ensure_columns_exist sqlite names) w = Raised e) /\
     (forallb (plain_label sqlite) names = true ->
      length (table_columns t) + length names <= max_columns sqlite ->
      exists c',
        In c' names /\
        outcome (ensure_columns_exist sqlite names) w =
          Raised (DuplicateColumnName c'))) /\
  (forall df pk clock io_fault,
     df_empty df = false -> In c (columns df) ->
     bare_name sqlite c = true ->
     (exists e,
        outcome (upsert_rows sqlite df pk clock io_fault) w = Raised e) /\
     rows_of (db (after (upsert_rows sqlite df pk clock io_fault) w)) =
       rows_of (db w)).
Proof.
  intros Hw Hc [col [Hcol Hsame]].
  assert (Hclash : existsb (fun col => same_name c (cname col))
                     (table_columns t) = true)
    by (apply existsb_exists; now exists col).
  assert (Hensure : forall names,
            In c names -> bare_name sqlite c = true ->
            exists e,
              outcome (ensure_columns_exist sqlite names) w = Raised e).
  { intros names Hin Hb. unfold outcome. rewrite ensure_columns_exist_eq, Hw.
    cbn [sql_table_info].
    apply (for_each_ensure_case_clash (column_names t) Hc Hb names
             (opened 1 w)); [| exact Hin].
    now exists t. }
  split.
  { intros names Hin Hb. split; [now apply Hensure |].
    intros Hall Hroom. unfold outcome.
    rewrite ensure_columns_exist_eq, Hw. cbn [sql_table_info].
    exact (for_each_ensure_duplicate (column_names t) Hc names
             (opened 1 w) t Hw Hc Hclash Hin Hall Hroom). }
  intros df pk clock io_fault Hfull Hin Hb.
  assert (Hraised : exists e,
            outcome (upsert_rows sqlite df pk clock io_fault) w = Raised e).
  { unfold outcome. rewrite upsert_rows_eq, Hfull.
    destruct (missing_pk df (pk_or_default pk)); [| now eexists].
    destruct (Hensure (columns df) Hin Hb) as [e Hout].
    unfold outcome in Hout.
    destruct (ensure_columns_exist sqlite (columns df) w)
      as [[[] | e1] w1]; [discriminate | now eexists]. }
  split; [exact Hraised |].
  destruct Hraised as [e He].
  exact (upsert_rows_raised_rows sqlite df pk clock io_fault w e He).
Qed.

End CaseClash.

Lemma case_variant_label_raises_witness :
  (exists e,
     outcome (upsert_rows no_coercion capital_frame None example_clock
                no_fault) stored_world = Raised e) /\
  exists c',
    In c' ["sexo"; "Idade"] /\
    outcome (ensure_columns_exist no_coercion ["sexo"; "Idade"])
            stored_world = Raised (DuplicateColumnName c').
Proof.
  split.
  - refine (proj1 (proj2 (case_variant_label_raises no_coercion "Idade"
                            stored_world _ eq_refl _ _)
                     capital_frame None example_clock no_fault eq_refl _
                     eq_refl)).
    + simpl. intros H.
      repeat (destruct H as [H | H]; [discriminate |]). exact H.
    + exists (mkColumn "idade" "INTEGER" false NoDefault). split.
      * simpl. auto 10.
      * reflexivity.
    + simpl. auto.
  - refine (proj2 (proj1 (case_variant_label_raises no_coercion "Idade"
                            stored_world _ eq_refl _ _)
                     ["sexo"; "Idade"] _ eq_refl) eq_refl _).
    + simpl. intros H.
      repeat (destruct H as [H | H]; [discriminate |]). exact H.
    + exists (mkColumn "idade" "INTEGER" false NoDefault). split.
      * simpl. auto 10.
      * reflexivity.
    + simpl. auto.
    + apply Nat.leb_le. vm_compute. reflexivity.
Defined.

(** ** A label held by two columns *)





Section Repeated.

Variable sqlite : engine.


End Repeated.


(** ** When a call returns *)




Section Succeeds.

Variable sqlite : engine.




End Succeeds.


(** ** [ensure_columns_exist] twice *)

Lemma for_each_ensure_skips (sqlite : engine) (existing names : list string) (w : world) :
  (forall c, In c names ->
     str_in c existing = true \/ str_in c reserved_columns = true) ->
  for_each names (ensure_body sqlite existing) w = (Returned tt, w).
Proof.
  induction names as [| x xs IH]; intros H; [reflexivity |].
  cbn [for_each]. unfold bind.
  assert (Hx : ensure_body sqlite existing x w = (Returned tt, w)).
  { unfold ensure_body. destruct (H x (or_introl eq_refl)) as [-> | Hr];
      [reflexivity |].
    rewrite Hr. now destruct (str_in x existing). }
  rewrite Hx. apply IH. intros c Hc. apply H. now right.
Qed.

(** X24: [ensure_columns_exist] is idempotent on bare names.  When
    every name is reserved or a bare name, after a call that returned the
    same call returns again, opens one connection to read the columns, and
    changes neither the database nor the log.  A name that is not bare
    need not be listed after its column is added, and the second call may
    then raise: the example adds [estado] for the name [estado civil]. *)
Theorem ensure_columns_exist_idempotent (sqlite : engine)
    (names : list string) (w : world) :
  forallb (plain_label sqlite) names = true ->
  outcome (ensure_columns_exist sqlite names) w = Returned tt ->
  ensure_columns_exist sqlite names
      (after (ensure_columns_exist sqlite names) w) =
    (Returned tt, opened 1 (after (ensure_columns_exist sqlite names) w)).
Proof.
  unfold outcome, after. intros Hall Hret.
  destruct (ensure_columns_exist sqlite names w) as [[[] | e] w1] eqn:He;
    [| discriminate].
  cbn [snd]. rewrite ensure_columns_exist_eq.
  apply for_each_ensure_skips. intros c Hc.
  assert (Hb : forall x, In x names -> str_in x reserved_columns = false ->
                         bare_name sqlite x = true).
  { intros x Hx Hr. rewrite forallb_forall in Hall.
    specialize (Hall x Hx). unfold plain_label in Hall.
    now rewrite Hr in Hall. }
  destruct (ensure_columns_exist_returned sqlite names w w1 Hb He c Hc)
    as [Hl | Hr]; [left; exact Hl | now right].
Qed.

Lemma ensure_columns_exist_idempotent_witness :
  ensure_columns_exist no_coercion ["idade"; "sexo"]
    (after (ensure_columns_exist no_coercion ["idade"; "sexo"])
           fresh_world) =
    (Returned tt,
     opened 1 (after (ensure_columns_exist no_coercion ["idade"; "sexo"])
                     fresh_world)) /\
  outcome (ensure_columns_exist no_coercion ["estado civil"]) fresh_world =
    Returned tt /\
  outcome (ensure_columns_exist no_coercion ["estado civil"])
    (after (ensure_columns_exist no_coercion ["estado civil"])
           fresh_world) =
    Raised (DuplicateColumnName "estado").
Proof.
  split; [| split; reflexivity].
  exact (ensure_columns_exist_idempotent no_coercion ["idade"; "sexo"]
           fresh_world eq_refl eq_refl).
Defined.

(** ** Errors in the log *)

Lemma for_each_ensure_raised (sqlite : engine) (existing names : list string) :
  forall w e,
    outcome (for_each names (ensure_body sqlite existing)) w = Raised e ->
    exists l,
      logs (after (for_each names (ensure_body sqlite existing)) w) =
        l ++ [ErrorTransaction e].
Proof.
  induction names as [| x xs IH]; intros w e; [discriminate |].
  unfold outcome, after. cbn [for_each]. unfold bind, ensure_body.
  destruct (str_in x existing); [exact (IH w e) |].
  destruct (str_in x reserved_columns); [exact (IH w e) |].
  rewrite add_column_if_not_exists_eq.
  destruct (str_in x (sql_table_info (db w))); [apply IH |].
  destruct (sql_add_column sqlite x (inferred_type x) (db w)) as [d | e1];
    [apply IH |].
  cbn [fst snd logs]. intros H. injection H as <-. now eexists.
Qed.

Section Logged.

Variable sqlite : engine.

(** X25: what a call that raises leaves in the log.  When [upsert_rows]
    raises, either the exception is the [ValueError] for the missing key
    columns and the call changed nothing, no connection was opened and
    nothing was logged; or the exception came out of a connection and the
    last record of the log is the error record of that exception. *)
Theorem upsert_rows_logs_errors (df : DataFrame) (pk : option (list string))
    (clock : nat -> string) (io_fault : nat -> bool) (w : world) (e : exn) :
  outcome (upsert_rows sqlite df pk clock io_fault) w = Raised e ->
  (e = ValueError (missing_pk df (pk_or_default pk)) /\
   after (upsert_rows sqlite df pk clock io_fault) w = w) \/
  (exists l,
     logs (after (upsert_rows sqlite df pk clock io_fault) w) =
       l ++ [ErrorTransaction e]).
Proof.
  unfold outcome, after. rewrite upsert_rows_eq.
  destruct (df_empty df); [discriminate |].
  destruct (missing_pk df (pk_or_default pk)) as [| c cs].
  - intros H. right.
    pose proof (for_each_ensure_raised sqlite (sql_table_info (db w)) (columns df)
                  (opened 1 w)) as Hloop.
    unfold outcome, after in Hloop. rewrite ensure_columns_exist_eq in *.
    destruct (for_each (columns df) (ensure_body sqlite (sql_table_info (db w)))
                (opened 1 w)) as [[[] | e1] w1]; cbn [fst snd] in *.
    + destruct (sql_executemany _ _ _ _ _ (db w1)) as [[[] | e2] d];
        [discriminate |].
      cbn [fst snd logs] in *. injection H as <-. now eexists.
    + injection H as <-. now apply Hloop.
  - cbn [fst snd]. intros H. injection H as <-. now left.
Qed.

End Logged.

Lemma upsert_rows_logs_errors_witness :
  exists l,
    logs (after (upsert_rows no_coercion keyless_frame None example_clock
                   no_fault) stored_world) =
      l ++ [ErrorTransaction (NotNullConstraint "identificador_unidade")].
Proof.
  destruct (upsert_rows_logs_errors no_coercion keyless_frame None
              example_clock no_fault stored_world
              (NotNullConstraint "identificador_unidade") eq_refl)
    as [[H _] | H].
  - discriminate H.
  - exact H.
Defined.

End SqliteClient.

(** * Facts about the mapping registry *)

Module MappingFacts.

Import Mapping.

Section AnyRegistry.

Variable var_map : dict (dict entry).

(** On any registry the guarded subscriptions never raise: the lookup
    answers with the field of the entry found by hand, or with [None]. *)
Lemma lookup_field_total (field variavel_semantica origem : string) :
  lookup_field field var_map variavel_semantica origem =
    Returned match entry_of var_map variavel_semantica origem with
             | Some e => dict_get field e
             | None => None
             end.
Proof.
  unfold lookup_field, entry_of, dict_contains, dict_getitem.
  destruct (dict_find variavel_semantica var_map) as [por_origem |];
    [| reflexivity].
  cbn [negb]. destruct (dict_find origem por_origem); reflexivity.
Qed.

Lemma variavel_existe_in_spec (variavel_semantica origem : string) :
  variavel_existe_in var_map variavel_semantica origem =
    Returned match get_codigo_fisico_in var_map variavel_semantica origem with
             | Returned (Some _) => true
             | _ => false
             end.
Proof.
  unfold variavel_existe_in, get_codigo_fisico_in.
  rewrite lookup_field_total. reflexivity.
Qed.

End AnyRegistry.

(** Every entry of [VAR_MAP] holds a code and a type. *)
Lemma every_entry_has_code (variavel_semantica origem : string) (e : entry) :
  entry_of VAR_MAP variavel_semantica origem = Some e ->
  exists codigo tipo, e = mk codigo tipo.
Proof.
  unfold entry_of, VAR_MAP. cbn [dict_find].
  repeat match goal with
         | |- context [String.eqb variavel_semantica ?k] =>
             destruct (String.eqb variavel_semantica k)
         end;
    try discriminate;
    unfold both; cbn [dict_find];
    destruct (String.eqb origem "2013");
    try (intros H; injection H as <-; eauto);
    destruct (String.eqb origem "2019");
    try (intros H; injection H as <-; eauto);
    discriminate.
Qed.

(** C5: [get_codigo_fisico] and [get_tipo] return on every pair of
    strings and never raise.  They return [None] when the semantic name is
    not in [VAR_MAP], when the name has no entry for the origin, and when
    the entry holds no code (no entry of [VAR_MAP] is in that case);
    otherwise they return the fields of the entry.  [variavel_existe]
    returns [True] exactly when [get_codigo_fisico] returns a code. *)
Theorem lookups_total (variavel_semantica origem : string) :
  (exists codigo tipo,
      get_codigo_fisico variavel_semantica origem = Returned codigo /\
      get_tipo variavel_semantica origem = Returned tipo) /\
  (dict_find variavel_semantica VAR_MAP = None ->
   get_codigo_fisico variavel_semantica origem = Returned None /\
   get_tipo variavel_semantica origem = Returned None) /\
  (forall por_origem,
      dict_find variavel_semantica VAR_MAP = Some por_origem ->
      dict_find origem por_origem = None ->
      get_codigo_fisico variavel_semantica origem = Returned None /\
      get_tipo variavel_semantica origem = Returned None) /\
  (forall e,
      entry_of VAR_MAP variavel_semantica origem = Some e ->
      dict_get "codigo" e = None ->
      get_codigo_fisico variavel_semantica origem = Returned None /\
      get_tipo variavel_semantica origem = Returned None) /\
  (forall e,
      entry_of VAR_MAP variavel_semantica origem = Some e ->
      get_codigo_fisico variavel_semantica origem =
        Returned (dict_get "codigo" e) /\
      get_tipo variavel_semantica origem = Returned (dict_get "tipo" e)) /\
  (exists b,
      variavel_existe variavel_semantica origem = Returned b /\
      (b = true <->
       exists codigo,
         get_codigo_fisico variavel_semantica origem =
           Returned (Some codigo))).
Proof.
  unfold get_codigo_fisico, get_tipo, variavel_existe, get_codigo_fisico_in,
    get_tipo_in.
  split; [| split; [| split; [| split; [| split]]]].
  - eexists. eexists. rewrite !lookup_field_total. split; reflexivity.
  - intros H. rewrite !lookup_field_total. unfold entry_of. now rewrite H.
  - intros por_origem H H0. rewrite !lookup_field_total. unfold entry_of.
    now rewrite H, H0.
  - intros e He Hnull.
    destruct (every_entry_has_code _ _ _ He) as [c [t ->]]. discriminate.
  - intros e He. rewrite !lookup_field_total. now rewrite He.
  - rewrite variavel_existe_in_spec. unfold get_codigo_fisico_in.
    rewrite lookup_field_total.
    destruct (match entry_of VAR_MAP variavel_semantica origem with
              | Some e => dict_get "codigo" e
              | None => None
              end) as [c |].
    + exists true. split; [reflexivity |]. split; [| reflexivity].
      intros _. now exists c.
    + exists false. split; [reflexivity |]. split; [discriminate |].
      intros [c Hc]. discriminate.
Qed.

Lemma lookups_total_witness :
  dict_find "cor_dos_olhos" VAR_MAP = None /\
  get_codigo_fisico "cor_dos_olhos" "2013" = Returned None /\
  get_tipo "cor_dos_olhos" "2013" = Returned None.
Proof.
  assert (H : dict_find "cor_dos_olhos" VAR_MAP = None) by reflexivity.
  split; [exact H |].
  exact (proj1 (proj2 (lookups_total "cor_dos_olhos" "2013")) H).
Defined.

(** C9, as the table has it: in every origin the registry knows, the unit
    identifier [identificador_unidade] has an entry with a code, so
    [variavel_existe] is [True] for it; [origem] is not a key of
    [VAR_MAP], it is the key of the second level, and [variavel_existe]
    is [False] for it in every origin. *)
Theorem identification_fields (origem : string) :
  In origem origens_conhecidas ->
  variavel_existe "identificador_unidade" origem = Returned true /\
  (exists codigo,
      get_codigo_fisico "identificador_unidade" origem =
        Returned (Some codigo)) /\
  dict_contains "origem" VAR_MAP = false /\
  variavel_existe "origem" origem = Returned false.
Proof.
  intros Hin.
  assert (Hk : origens_conhecidas = ["2013"; "2019"]) by (vm_compute; reflexivity).
  rewrite Hk in Hin.
  destruct Hin as [<- | [<- | []]].
  - repeat split; try reflexivity. eexists. reflexivity.
  - repeat split; try reflexivity. eexists. reflexivity.
Qed.

Lemma identification_fields_witness :
  In "2019" origens_conhecidas /\
  variavel_existe "identificador_unidade" "2019" = Returned true.
Proof.
  assert (H : In "2019" origens_conhecidas) by (vm_compute; auto).
  split; [exact H | exact (proj1 (identification_fields "2019" H))].
Defined.

(** C9 as worded fails for the origin tag: [origem] has no entry in the
    registry of the known origin 2013. *)
Lemma origin_tag_not_mapped :
  In "2013" origens_conhecidas /\
  variavel_existe "origem" "2013" = Returned false /\
  get_codigo_fisico "origem" "2013" = Returned None.
Proof.
  split; [vm_compute; auto | split; reflexivity].
Qed.

(** ** The list of the variables *)

Lemma variavel_existe_known (variavel_semantica origem : string) :
  variavel_existe variavel_semantica origem = Returned true ->
  In variavel_semantica (dict_keys VAR_MAP).
Proof.
  unfold variavel_existe. rewrite variavel_existe_in_spec.
  unfold get_codigo_fisico_in. rewrite lookup_field_total. unfold entry_of.
  destruct (dict_find variavel_semantica VAR_MAP) as [por_origem |] eqn:E;
    [| discriminate].
  intros _. exact (SqliteClient.dict_find_key _ _ _ E).
Qed.

(** X1: [listar_variaveis_disponiveis] without an origin lists exactly the
    keys of [VAR_MAP]; with an origin it lists exactly the names for which
    [variavel_existe] answers [True], in the order of the table. *)
Theorem listar_variaveis_disponiveis_spec (variavel_semantica : string) :
  (In variavel_semantica (listar_variaveis_disponiveis None) <->
   dict_contains variavel_semantica VAR_MAP = true) /\
  (forall origem,
      In variavel_semantica (listar_variaveis_disponiveis (Some origem)) <->
      variavel_existe variavel_semantica origem = Returned true) /\
  (forall origem,
      exists keep,
        listar_variaveis_disponiveis (Some origem) =
          filter keep (listar_variaveis_disponiveis None)).
Proof.
  split; [| split].
  - cbn [listar_variaveis_disponiveis]. unfold dict_contains. split.
    + intros H. destruct (SqliteClient.dict_key_find _ _ H) as [v ->].
      reflexivity.
    + destruct (dict_find variavel_semantica VAR_MAP) eqn:E; [| discriminate].
      intros _. exact (SqliteClient.dict_find_key _ _ _ E).
  - intros origem. cbn [listar_variaveis_disponiveis]. rewrite filter_In.
    split.
    + intros [_ H].
      destruct (variavel_existe variavel_semantica origem) as [[] | e];
        try discriminate. reflexivity.
    + intros H. split; [exact (variavel_existe_known _ _ H) |]. now rewrite H.
  - intros origem. eexists. reflexivity.
Qed.

Lemma entry_of_origin (variavel_semantica origem : string) (e : entry) :
  entry_of VAR_MAP variavel_semantica origem = Some e ->
  In origem origens_conhecidas /\
  exists codigo tipo,
    e = mk codigo tipo /\ In tipo ["int"; "string"; "float"].
Proof.
  unfold entry_of, VAR_MAP. cbn [dict_find].
  repeat match goal with
         | |- context [String.eqb variavel_semantica ?k] =>
             destruct (String.eqb variavel_semantica k)
         end;
    try discriminate;
    unfold both; cbn [dict_find];
    destruct (String.eqb origem "2013") eqn:E13;
    try (apply String.eqb_eq in E13; subst origem; intros H;
         injection H as <-; split;
         [vm_compute; auto | eexists; eexists; split; [reflexivity |];
                             simpl; auto]);
    destruct (String.eqb origem "2019") eqn:E19;
    try (apply String.eqb_eq in E19; subst origem; intros H;
         injection H as <-; split;
         [vm_compute; auto | eexists; eexists; split; [reflexivity |];
                             simpl; auto]);
    discriminate.
Qed.

Lemma filter_none {A} (p : A -> bool) (xs : list A) :
  (forall x, In x xs -> p x = false) -> filter p xs = [].
Proof.
  induction xs as [| x xs IH]; intros H; [reflexivity |].
  cbn [filter]. rewrite (H x (or_introl eq_refl)).
  apply IH. intros y Hy. apply H. now right.
Qed.

(** X2: every variable of the registry exists in every origin the registry
    knows, so the list for a known origin is the whole list; for any other
    origin the list is empty and every lookup answers [None]. *)
Theorem every_variable_in_every_known_origin (origem : string) :
  (In origem origens_conhecidas ->
   listar_variaveis_disponiveis (Some origem) =
     listar_variaveis_disponiveis None) /\
  (~ In origem origens_conhecidas ->
   listar_variaveis_disponiveis (Some origem) = [] /\
   forall variavel_semantica,
     get_codigo_fisico variavel_semantica origem = Returned None /\
     get_tipo variavel_semantica origem = Returned None /\
     variavel_existe variavel_semantica origem = Returned false).
Proof.
  split.
  - intros Hin.
    assert (Hk : origens_conhecidas = ["2013"; "2019"])
      by (vm_compute; reflexivity).
    rewrite Hk in Hin. destruct Hin as [<- | [<- | []]]; reflexivity.
  - intros Hout.
    assert (Hnone : forall v, entry_of VAR_MAP v origem = None).
    { intros v. destruct (entry_of VAR_MAP v origem) as [e |] eqn:E;
        [| reflexivity].
      exfalso. apply Hout. exact (proj1 (entry_of_origin _ _ _ E)). }
    assert (Hall : forall v,
               get_codigo_fisico v origem = Returned None /\
               get_tipo v origem = Returned None /\
               variavel_existe v origem = Returned false).
    { intros v. unfold get_codigo_fisico, get_tipo, variavel_existe.
      rewrite variavel_existe_in_spec.
      unfold get_codigo_fisico_in, get_tipo_in.
      rewrite !lookup_field_total, Hnone. auto. }
    split; [| exact Hall].
    cbn [listar_variaveis_disponiveis]. apply filter_none.
    intros v _. now rewrite (proj2 (proj2 (Hall v))).
Qed.

Lemma every_variable_in_every_known_origin_witness :
  ~ In "2016" origens_conhecidas /\
  listar_variaveis_disponiveis (Some "2016") = [] /\
  In "2019" origens_conhecidas /\
  listar_variaveis_disponiveis (Some "2019") =
    listar_variaveis_disponiveis None.
Proof.
  assert (H16 : ~ In "2016" origens_conhecidas).
  { vm_compute. intros [H | [H | []]]; discriminate. }
  assert (H19 : In "2019" origens_conhecidas) by (vm_compute; auto).
  split; [exact H16 | split; [| split; [exact H19 |]]].
  - exact (proj1 (proj2 (every_variable_in_every_known_origin "2016") H16)).
  - exact (proj1 (every_variable_in_every_known_origin "2019") H19).
Defined.

(** X3: the type [get_tipo] returns is one of int, string and float, and
    it returns a type exactly when [get_codigo_fisico] returns a code. *)
Theorem get_tipo_domain (variavel_semantica origem : string) :
  (forall tipo,
      get_tipo variavel_semantica origem = Returned (Some tipo) ->
      In tipo ["int"; "string"; "float"]) /\
  ((exists tipo, get_tipo variavel_semantica origem = Returned (Some tipo)) <->
   (exists codigo,
       get_codigo_fisico variavel_semantica origem = Returned (Some codigo))).
Proof.
  unfold get_tipo, get_codigo_fisico, get_tipo_in, get_codigo_fisico_in.
  rewrite !lookup_field_total.
  destruct (entry_of VAR_MAP variavel_semantica origem) as [e |] eqn:E.
  - destruct (entry_of_origin _ _ _ E) as [_ [c [t [-> Ht]]]].
    cbn. split.
    + intros tipo H. injection H as <-. exact Ht.
    + split; intros _; eauto.
  - split.
    + intros tipo H. discriminate.
    + split; intros [x H]; discriminate.
Qed.

Lemma get_tipo_domain_witness :
  get_tipo "idade" "2013" = Returned (Some "int") /\
  In "int" ["int"; "string"; "float"].
Proof.
  assert (H : get_tipo "idade" "2013" = Returned (Some "int")) by reflexivity.
  split; [exact H | exact (proj1 (get_tipo_domain "idade" "2013") "int" H)].
Defined.

Lemma registry_keys_distinct : NoDup (dict_keys VAR_MAP).
Proof.
  unfold VAR_MAP, dict_keys. cbn [map fst].
  repeat (apply NoDup_cons;
          [simpl; intros H;
           repeat (destruct H as [H | H]; [discriminate |]); exact H |]).
  apply NoDup_nil.
Qed.

(** X4: no name is listed twice, with or without an origin; a name is a
    key of the registry once, so the table read as a list is the table
    read as a dictionary. *)
Theorem listar_variaveis_disponiveis_distinct (origem : option string) :
  NoDup (listar_variaveis_disponiveis origem).
Proof.
  destruct origem as [o |]; cbn [listar_variaveis_disponiveis].
  - apply NoDup_filter. exact registry_keys_distinct.
  - exact registry_keys_distinct.
Qed.

(** ** The two surveys *)

Lemma entry_of_2013_2019 (variavel_semantica : string) :
  entry_of VAR_MAP variavel_semantica "2013" =
    entry_of VAR_MAP variavel_semantica "2019".
Proof.
  unfold entry_of, VAR_MAP. cbn [dict_find].
  repeat match goal with
         | |- context [String.eqb variavel_semantica ?k] =>
             destruct (String.eqb variavel_semantica k)
         end;
    reflexivity.
Qed.

(** X22: the two surveys are mapped alike.  For every name, the code and
    the type the lookups return are the same in every origin the registry
    knows. *)
Theorem known_origins_agree (variavel_semantica origem origem' : string) :
  In origem origens_conhecidas -> In origem' origens_conhecidas ->
  get_codigo_fisico variavel_semantica origem =
    get_codigo_fisico variavel_semantica origem' /\
  get_tipo variavel_semantica origem = get_tipo variavel_semantica origem'.
Proof.
  assert (Hk : origens_conhecidas = ["2013"; "2019"])
    by (vm_compute; reflexivity).
  rewrite Hk. intros H H'.
  unfold get_codigo_fisico, get_tipo, get_codigo_fisico_in, get_tipo_in.
  rewrite !lookup_field_total.
  destruct H as [<- | [<- | []]]; destruct H' as [<- | [<- | []]];
    rewrite ?entry_of_2013_2019; split; reflexivity.
Qed.

Lemma known_origins_agree_witness :
  get_codigo_fisico "renda_per_capita" "2013" =
    get_codigo_fisico "renda_per_capita" "2019" /\
  get_tipo "renda_per_capita" "2013" = get_tipo "renda_per_capita" "2019".
Proof.
  apply known_origins_agree; vm_compute; auto.
Defined.

(** ** The registry and the columns of the cache *)

(** X23: the column of a registry variable gets the type of the registry.
    For every name to which [get_tipo] gives a type, the key column
    [identificador_unidade] apart, the SQL type [ensure_columns_exist]
    infers from the name is INTEGER for int, REAL for float and TEXT for
    string. *)
Theorem inferred_type_follows_registry
    (variavel_semantica origem tipo : string) :
  get_tipo variavel_semantica origem = Returned (Some tipo) ->
  ~ In variavel_semantica SqliteClient.reserved_columns ->
  (tipo = "int" ->
   SqliteClient.inferred_type variavel_semantica = "INTEGER") /\
  (tipo = "float" ->
   SqliteClient.inferred_type variavel_semantica = "REAL") /\
  (tipo = "string" ->
   SqliteClient.inferred_type variavel_semantica = "TEXT").
Proof.
  unfold get_tipo, get_tipo_in. rewrite lookup_field_total.
  unfold entry_of, VAR_MAP. cbn [dict_find].
  repeat match goal with
         | |- context [String.eqb variavel_semantica ?k] =>
             let E := fresh "E" in
             destruct (String.eqb variavel_semantica k) eqn:E;
             [apply String.eqb_eq in E; subst variavel_semantica |]
         end;
    try discriminate;
    unfold both; cbn [dict_find];
    (destruct (String.eqb origem "2013");
     [| destruct (String.eqb origem "2019"); [| discriminate]]);
    intros H Hres; injection H as <-;
    try (exfalso; apply Hres; simpl; tauto);
    repeat split; intros Ht; try discriminate Ht; vm_compute; reflexivity.
Qed.

Lemma inferred_type_follows_registry_witness :
  SqliteClient.inferred_type "anos_estudo" = "INTEGER".
Proof.
  refine (proj1 (inferred_type_follows_registry "anos_estudo" "2019" "int"
                   eq_refl _) eq_refl).
  simpl. intros [H | [H | [H | [H | []]]]]; discriminate.
Defined.

End MappingFacts.
